(** * custom-teams.py: Wazuh alert to Microsoft Teams adaptive card

    A shallow embedding of [integrations/custom-teams.py] and the proofs of
    its specification.

    Conventions of the embedding:
    - a Python [int] is a [Z] (unbounded);
    - a Python [str] is the [string] of its UTF-8 bytes, so that the source's
      literals are written as they are;
    - a decoded JSON document and the card built from it are both Python
      objects of type [value]; a [dict] with string keys is an association
      list in insertion order, the first binding of a key being the one a
      lookup finds;
    - a function that logs, performs I/O or raises returns the trace of
      what it did together with either the exception or the result; the
      file system and the network are read from a [World], and the
      behaviour of the interpreter's built-ins that is not spelled out
      here from a [Runtime]. *)

From Stdlib Require Import ZArith String Ascii List Bool Lia DecimalString.
From Stdlib Require Import Floats.SpecFloat.
From Stdlib Require DecimalPos DecimalZ.
Import ListNotations.

Local Open Scope list_scope.
Local Open Scope string_scope.
Local Set Warnings "-register-all".

(** ** Python objects *)

Module Py.

(** The values [json.load] produces, which are also the values the card
    is made of. *)
Inductive value : Type :=
| VNone
| VBool (b : bool)
| VInt (z : Z)
| VFloat (f : spec_float)
| VStr (s : string)
| VList (l : list value)
| VDict (d : list (string * value)).

(** The exceptions the program can meet. *)
Inductive exn : Type :=
| KeyError (key : string)
| IndexError
| TypeError
| ValueError
| OverflowError
| OSError            (* open(): missing or unreadable file *)
| JSONDecodeError    (* json.load(): not a JSON document *)
| RequestException (what : string).  (* requests: connection error, timeout, ... *)

Definition result (A : Type) : Type := (exn + A)%type.

Fixpoint assoc {A : Type} (k : string) (d : list (string * A)) : option A :=
  match d with
  | [] => None
  | (k', v) :: d' => if String.eqb k k' then Some v else assoc k d'
  end.

(** [obj[key]] for a string key. *)
Definition getitem (obj : value) (key : string) : result value :=
  match obj with
  | VDict d =>
      match assoc key d with
      | Some v => inr v
      | None => inl (KeyError key)
      end
  | _ => inl TypeError
  end.

(** [args[i]] on a list. *)
Definition index {A : Type} (l : list A) (i : nat) : result A :=
  match nth_error l i with
  | Some x => inr x
  | None => inl IndexError
  end.

(** [str(n)] for an [int]. *)
Definition str_of_int (z : Z) : string :=
  NilZero.string_of_int (Z.to_int z).

(** [int(x)] for a [float]: truncation towards zero. *)
Definition int_of_float (f : spec_float) : result Z :=
  match f with
  | S754_zero _ => inr 0%Z
  | S754_infinity _ => inl OverflowError
  | S754_nan => inl ValueError
  | S754_finite s m e =>
      let magnitude :=
        if (0 <=? e)%Z then Z.shiftl (Z.pos m) e
        else Z.shiftr (Z.pos m) (- e) in
      inr (if s then (- magnitude)%Z else magnitude)
  end.

(** What the embedding takes from the interpreter and its libraries
    without modelling it further. *)
Record Runtime : Type := {
  (** [repr(x)] of a float, a list or a dict *)
  repr : value -> string;
  (** [int(s)] of a [str]; [None] when it raises [ValueError] *)
  int_of_str : string -> option Z;
  (** [json.dumps(x)] *)
  json_dumps : value -> string;
  (** the table of named character references, [html.entities.html5] *)
  html5 : string -> option string;
  (** the text a numeric character reference of that number stands for *)
  numeric_charref : Z -> string
}.

(** [int(x)] *)
Definition int (rt : Runtime) (x : value) : result Z :=
  match x with
  | VInt z => inr z
  | VBool b => inr (if b then 1%Z else 0%Z)
  | VFloat f => int_of_float f
  | VStr s =>
      match int_of_str rt s with
      | Some z => inr z
      | None => inl ValueError
      end
  | VNone | VList _ | VDict _ => inl TypeError
  end.

(** [str(x)] *)
Definition str (rt : Runtime) (x : value) : string :=
  match x with
  | VStr s => s
  | VNone => "None"
  | VBool b => if b then "True" else "False"
  | VInt z => str_of_int z
  | VFloat _ | VList _ | VDict _ => repr rt x
  end.

(** Truthiness of a [str]. *)
Definition nonempty (s : string) : bool :=
  match s with
  | EmptyString => false
  | String _ _ => true
  end.

End Py.
Import Py.

(** ** Effects: the log, the network and exceptions *)

Inductive level : Type := DEBUG | INFO | ERROR.

(** What is handed to the logger: a text, an object the logger renders,
    or the text [str(e)] of an exception. *)
Inductive message : Type :=
| Text (s : string)
| Object (v : value)
| Arguments (argv : list string)
| Failure (e : exn).

Record request : Type := {
  url : string;
  headers : list (string * string);
  data : string;
  timeout : Z
}.

Record response : Type := {
  status_code : Z;
  text : string
}.

(** [response.ok]: false exactly for the client and server error codes. *)
Definition ok (r : response) : bool :=
  negb ((400 <=? status_code r)%Z && (status_code r <? 600)%Z).

Inductive event : Type :=
| Logged (l : level) (m : message)
| Posted (r : request).

(** The environment of one run: what each path holds once opened and
    decoded, and what the network answers to a POST. *)
Record World : Type := {
  files : string -> result value;
  network : request -> result response
}.

(** A computation: the events it produced, then how it ended. *)
Definition M (A : Type) : Type := (list event * result A)%type.

Definition ret {A : Type} (x : A) : M A := ([], inr x).

Definition bind {A B : Type} (c : M A) (k : A -> M B) : M B :=
  match c with
  | (t, inl e) => (t, inl e)
  | (t, inr x) => let (t', r) := k x in ((t ++ t')%list, r)
  end.

Definition lift {A : Type} (r : result A) : M A := ([], r).

Definition emit (e : event) : M unit := ([e], inr tt).

Declare Scope py_scope.
Delimit Scope py_scope with py.
Notation "x <- c ;; k" := (bind c (fun x => k))
  (at level 61, c at next level, right associativity) : py_scope.
Notation "c ;; k" := (bind c (fun _ => k))
  (at level 61, right associativity) : py_scope.
Local Open Scope py_scope.

Definition trace {A : Type} (c : M A) : list event := fst c.
Definition outcome {A : Type} (c : M A) : result A := snd c.

Definition logging_debug (m : message) : M unit := emit (Logged DEBUG m).
Definition logging_info (s : string) : M unit := emit (Logged INFO (Text s)).
Definition logging_error (s : string) : M unit := emit (Logged ERROR (Text s)).

(** ** The program *)

Record Alert : Type := {
  rule_id : Z;
  rule_level : Z;
  rule_description : string;
  agent_id : Z;
  agent_name : string;
  full_log : string
}.

Definition get_severity_color (rule_level : Z) : string :=
  if (rule_level >=? 10)%Z then "attention"
  else if (rule_level >=? 7)%Z then "warning"
  else if (rule_level >=? 4)%Z then "good"
  else "accent".

Definition target (elementId : string) (isVisible : bool) : value :=
  VDict [("elementId", VStr elementId); ("isVisible", VBool isVisible)].

Definition generate_adaptive_card (alert : Alert) : M value :=
  let severity_color := get_severity_color (rule_level alert) in
  logging_info "Generating MS Teams Adaptive Card" ;;
  let adaptive_card := VDict [
    ("$schema", VStr "http://adaptivecards.io/schemas/adaptive-card.json");
    ("type", VStr "AdaptiveCard");
    ("version", VStr "1.3");
    ("msteams", VDict [("width", VStr "Full")]);
    ("body", VList [
      VDict [
        ("type", VStr "Container");
        ("style", VStr severity_color);
        ("bleed", VBool true);
        ("items", VList [
          VDict [("type", VStr "TextBlock");
                 ("text", VStr (rule_description alert));
                 ("weight", VStr "Bolder")]
        ])
      ];
      VDict [
        ("type", VStr "RichTextBlock");
        ("inlines", VList [
          VDict [("type", VStr "TextRun"); ("text", VStr "Agent: ");
                 ("weight", VStr "Bolder")];
          VDict [("type", VStr "TextRun");
                 ("text", VStr (agent_name alert ++ " "))];
          VDict [("type", VStr "TextRun");
                 ("text", VStr ("(ID " ++ str_of_int (agent_id alert) ++ ")"));
                 ("italic", VBool true)]
        ])
      ];
      VDict [
        ("type", VStr "RichTextBlock");
        ("inlines", VList [
          VDict [("type", VStr "TextRun"); ("text", VStr "Rule: ");
                 ("weight", VStr "Bolder")];
          VDict [("type", VStr "TextRun");
                 ("text", VStr (str_of_int (rule_id alert) ++ " "))];
          VDict [("type", VStr "TextRun");
                 ("text", VStr ("(Level " ++ str_of_int (rule_level alert) ++ ")"));
                 ("italic", VBool true)]
        ])
      ];
      VDict [
        ("type", VStr "Container");
        ("id", VStr "showToggle");
        ("spacing", VStr "Medium");
        ("separator", VBool true);
        ("items", VList [
          VDict [
            ("type", VStr "ActionSet");
            ("actions", VList [
              VDict [
                ("type", VStr "Action.ToggleVisibility");
                ("title", VStr "Show Full Log ▸");
                ("targetElements", VList [
                  target "fullLogBlock" true;
                  target "showToggle" false;
                  target "hideToggle" true
                ])
              ]
            ])
          ]
        ])
      ];
      VDict [
        ("type", VStr "Container");
        ("id", VStr "hideToggle");
        ("isVisible", VBool false);
        ("items", VList [
          VDict [
            ("type", VStr "ActionSet");
            ("actions", VList [
              VDict [
                ("type", VStr "Action.ToggleVisibility");
                ("title", VStr "Hide Full Log ▾");
                ("targetElements", VList [
                  target "fullLogBlock" false;
                  target "showToggle" true;
                  target "hideToggle" false
                ])
              ]
            ])
          ]
        ])
      ];
      VDict [
        ("type", VStr "Container");
        ("id", VStr "fullLogBlock");
        ("isVisible", VBool false);
        ("style", VStr "emphasis");
        ("bleed", VBool false);
        ("spacing", VStr "Small");
        ("items", VList [
          VDict [("type", VStr "TextBlock");
                 ("text", VStr (full_log alert));
                 ("wrap", VBool true);
                 ("maxLines", VInt 0);
                 ("fontType", VStr "Monospace")]
        ])
      ]
    ]);
    ("fallbackText", VStr "Wazuh Alert")
  ] in
  ret adaptive_card.

(** *** AlertReader *)

Section Reader.

Variable rt : Runtime.
Variable w : World.

Definition get_alert_details (alert_file_path : string) : M Alert :=
  alert_body <- lift (files w alert_file_path) ;;
  logging_debug (Object alert_body) ;;
  rule <- lift (getitem alert_body "rule") ;;
  id <- lift (getitem rule "id") ;;
  rule_id <- lift (int rt id) ;;
  rule <- lift (getitem alert_body "rule") ;;
  level <- lift (getitem rule "level") ;;
  rule_level <- lift (int rt level) ;;
  rule <- lift (getitem alert_body "rule") ;;
  description <- lift (getitem rule "description") ;;
  let rule_description :=
    if nonempty (str rt description) then str rt description
    else "Wazuh Alert" in
  agent <- lift (getitem alert_body "agent") ;;
  id <- lift (getitem agent "id") ;;
  agent_id <- lift (int rt id) ;;
  agent <- lift (getitem alert_body "agent") ;;
  name <- lift (getitem agent "name") ;;
  let agent_name := str rt name in
  full_log <- lift (getitem alert_body "full_log") ;;
  let full_log := str rt full_log in
  ret {| rule_id := rule_id;
         rule_level := rule_level;
         rule_description := rule_description;
         agent_id := agent_id;
         agent_name := agent_name;
         full_log := full_log |}.

End Reader.

(** *** Dispatcher *)

(** **** [html.unescape] *)

Module html.

Definition code (c : ascii) : N := N_of_ascii c.

Definition is_digit (c : ascii) : bool :=
  ((48 <=? code c) && (code c <=? 57))%N.

Definition is_hex_digit (c : ascii) : bool :=
  is_digit c
  || ((65 <=? code c) && (code c <=? 70))%N
  || ((97 <=? code c) && (code c <=? 102))%N.

(** The class [[^\t\n\f <&#;]] of the characters of a name. *)
Definition is_name_char (c : ascii) : bool :=
  negb (existsb (N.eqb (code c)) [9; 10; 12; 32; 60; 38; 35; 59]%N).

(** A byte that continues a UTF-8 character begun before it. *)
Definition is_continuation (c : ascii) : bool :=
  ((128 <=? code c) && (code c <? 192))%N.

Definition digit_value (c : ascii) : Z :=
  let n := Z.of_N (code c) in
  if is_digit c then (n - 48)%Z
  else if (97 <=? n)%Z then (n - 87)%Z
  else (n - 55)%Z.

(** [int(s, base)] on a string of digits of that base. *)
Definition int_of_digits (base : Z) (s : string) : Z :=
  fold_left (fun acc c => (acc * base + digit_value c)%Z)
            (list_ascii_of_string s) 0%Z.

Fixpoint contains (c : ascii) (s : string) : bool :=
  match s with
  | EmptyString => false
  | String a s' => Ascii.eqb a c || contains c s'
  end.

(** The longest prefix made of characters in [p], and what follows it. *)
Fixpoint span (p : ascii -> bool) (s : string) : string * string :=
  match s with
  | EmptyString => (EmptyString, EmptyString)
  | String c s' =>
      if p c then let (a, b) := span p s' in (String c a, b)
      else (EmptyString, s)
  end.

(** The longest prefix of at most [n] name characters, and what follows it.
    A character counts once, whatever the number of its bytes. *)
Fixpoint span_name (n : nat) (s : string) : string * string :=
  match s with
  | EmptyString => (EmptyString, EmptyString)
  | String c s' =>
      if is_continuation c then
        let (a, b) := span_name n s' in (String c a, b)
      else if is_name_char c then
        match n with
        | O => (EmptyString, s)
        | S n' => let (a, b) := span_name n' s' in (String c a, b)
        end
      else (EmptyString, s)
  end.

(** [body] and the semicolon that follows it, if one does. *)
Definition with_semicolon (body rest : string) : string :=
  match rest with
  | String ";" _ => body ++ ";"
  | _ => body
  end.

(** [s.rstrip(c)] *)
Fixpoint rstrip (c : ascii) (s : string) : string :=
  match s with
  | EmptyString => EmptyString
  | String a s' =>
      match rstrip c s' with
      | EmptyString => if Ascii.eqb a c then EmptyString else String a EmptyString
      | r => String a r
      end
  end.

(** What the pattern
    [&(#[0-9]+;?|#[xX][0-9a-fA-F]+;?|[^\t\n\f <&#;]{1,32};?)]
    captures right after an ampersand, if it matches there. *)
Definition match_charref (s : string) : option string :=
  match s with
  | String "#" s1 =>
      match s1 with
      | String c s2 =>
          if is_digit c then
            let (ds, rest) := span is_digit s1 in
            Some (String "#" (with_semicolon ds rest))
          else if Ascii.eqb c "x" || Ascii.eqb c "X" then
            let (hs, rest) := span is_hex_digit s2 in
            if nonempty hs then Some (String "#" (String c (with_semicolon hs rest)))
            else None
          else None
      | EmptyString => None
      end
  | _ =>
      let (name, rest) := span_name 32 s in
      if nonempty name then Some (with_semicolon name rest) else None
  end.

Section Unescape.

Variable rt : Runtime.

(** The loop [for x in range(len(s)-1, 1, -1)] over the proper prefixes of
    a name, longest first, started at [x]. *)
Fixpoint longest_prefix (x : nat) (s : string) : option string :=
  match x with
  | S x' =>
      match x' with
      | O => None
      | S _ =>
          match html5 rt (substring 0 x s) with
          | Some r => Some (r ++ substring x (String.length s - x) s)
          | None => longest_prefix x' s
          end
      end
  | O => None
  end.

Definition replace_charref (s : string) : string :=
  match s with
  | String "#" s1 =>
      match s1 with
      | String c s2 =>
          if Ascii.eqb c "x" || Ascii.eqb c "X" then
            numeric_charref rt (int_of_digits 16 (rstrip ";" s2))
          else
            numeric_charref rt (int_of_digits 10 (rstrip ";" s1))
      | EmptyString => EmptyString  (* no match is a lone "#" *)
      end
  | _ =>
      match html5 rt s with
      | Some r => r
      | None =>
          match longest_prefix (String.length s - 1) s with
          | Some r => r
          | None => String "&" s
          end
      end
  end.

(** [_charref.sub(_replace_charref, s)]: a scan from left to right in which
    [skip] bytes, those of the reference just replaced, are still to be
    passed over. *)
Fixpoint sub_charref (skip : nat) (s : string) : string :=
  match s with
  | EmptyString => EmptyString
  | String c s' =>
      match skip with
      | S k => sub_charref k s'
      | O =>
          if Ascii.eqb c "&" then
            match match_charref s' with
            | Some g => replace_charref g ++ sub_charref (String.length g) s'
            | None => String c (sub_charref 0 s')
            end
          else String c (sub_charref 0 s')
      end
  end.

(** Modelled from the spec: [html.unescape] belongs to Python's standard
    library and is not part of this repository; the spec describes it as
    HTML-entity decoding that turns [&amp;] back into [&]. The model follows
    the library's algorithm: a string without ampersand is returned as it
    is; otherwise every match of the character-reference pattern is
    replaced, a numeric reference by the character of its number and a
    named one by its entry in the table of names, or by the entry of its
    longest prefix that has one. *)
Definition unescape (s : string) : string :=
  if contains "&" s then sub_charref 0 s else s.

End Unescape.

End html.

Section Dispatcher.

Variable rt : Runtime.
Variable w : World.

Definition requests_post (r : request) : M response :=
  emit (Posted r) ;;
  lift (network w r).

Definition send_message (adaptive_card : value) (webhook : string) : M unit :=
  let webhook := html.unescape rt webhook in
  let headers := [("Content-Type", "application/json")] in
  let payload := json_dumps rt adaptive_card in
  logging_info ("Sending message to Power Automate: " ++ payload) ;;
  logging_info ("Using webhook URL: " ++ webhook) ;;
  response <- requests_post {| url := webhook; headers := headers;
                               data := payload; timeout := 60 |} ;;
  if negb (ok response) then
    logging_error "Failed to send message!" ;;
    logging_error ("Response code: " ++ str_of_int (status_code response)
                   ++ ", response body: " ++ text response)
  else
    logging_info "Successfully sent message to Power Automate".

Definition handle_alert (args : list string) : M unit :=
  alert_file_path <- lift (index args 1) ;;
  webhook <- lift (index args 3) ;;
  alert <- get_alert_details rt w alert_file_path ;;
  adaptive_card <- generate_adaptive_card alert ;;
  send_message adaptive_card webhook.

(** The body of [if __name__ == "__main__"]: whatever [handle_alert] raises
    is logged and raised again. *)
Definition main (argv : list string) : M unit :=
  match logging_debug (Arguments argv) ;; handle_alert argv with
  | (t, inl e) => ((t ++ [Logged ERROR (Failure e)])%list, inl e)
  | (t, inr x) => (t, inr x)
  end.

End Dispatcher.

(** ** Reading a card *)

(** The value under a key of a dict, if the object is a dict that has it. *)
Definition field (k : string) (v : value) : option value :=
  match v with
  | VDict d => assoc k d
  | _ => None
  end.

(** The value at the end of a path of keys. *)
Fixpoint lookup (path : list string) (v : value) : option value :=
  match path with
  | [] => Some v
  | k :: path' =>
      match field k v with
      | Some v' => lookup path' v'
      | None => None
      end
  end.

Definition elements (v : option value) : list value :=
  match v with
  | Some (VList l) => l
  | _ => []
  end.

Definition body (card : value) : list value := elements (field "body" card).

Definition has_id (id : string) (e : value) : bool :=
  match field "id" e with
  | Some (VStr s) => String.eqb s id
  | _ => false
  end.

Definition element (id : string) (card : value) : option value :=
  find (has_id id) (body card).

(** An element is visible unless it says otherwise. *)
Definition initially_visible (e : value) : bool :=
  match field "isVisible" e with
  | Some (VBool b) => b
  | _ => true
  end.

Definition has_flag (k : string) (e : value) : bool :=
  match field k e with
  | Some (VBool b) => b
  | _ => false
  end.

Definition is_bold (e : value) : bool :=
  match field "weight" e with
  | Some (VStr "Bolder") => true
  | _ => false
  end.

Definition text_of (e : value) : string :=
  match field "text" e with
  | Some (VStr s) => s
  | _ => ""
  end.

(** The text runs of a rich-text line: text, bold, italic. *)
Definition runs (line : value) : list (string * bool * bool) :=
  map (fun r => (text_of r, is_bold r, has_flag "italic" r))
      (elements (field "inlines" line)).

Definition line_text (line : value) : string :=
  String.concat "" (map (fun r => fst (fst r)) (runs line)).

Definition rendered (alert : Alert) (card : value) : Prop :=
  generate_adaptive_card alert =
    ([Logged INFO (Text "Generating MS Teams Adaptive Card")], inr card).

Definition severity_tokens : list string :=
  ["attention"; "warning"; "good"; "accent"].

(** *** The document states of a card *)

(** Which identified elements are shown. *)
Definition visibility : Type := string -> bool.

Definition initial (card : value) : visibility :=
  fun id =>
    match element id card with
    | Some e => initially_visible e
    | None => false
    end.

Definition is_type (t : string) (e : value) : bool :=
  match field "type" e with
  | Some (VStr s) => String.eqb s t
  | _ => false
  end.

Definition target_of (t : value) : list (string * bool) :=
  match field "elementId" t, field "isVisible" t with
  | Some (VStr id), Some (VBool b) => [(id, b)]
  | _, _ => []
  end.

(** The visibility flips an action declares. *)
Definition flips (action : value) : list (string * bool) :=
  flat_map target_of (elements (field "targetElements" action)).

(** The toggle actions placed in an element. *)
Definition toggles_in (e : value) : list (list (string * bool)) :=
  flat_map
    (fun item =>
       if is_type "ActionSet" item then
         map flips (filter (is_type "Action.ToggleVisibility")
                           (elements (field "actions" item)))
       else [])
    (elements (field "items" e)).

(** The toggles of a card, each with the identifier of the element that
    holds it. *)
Definition toggles (card : value) : list (string * list (string * bool)) :=
  flat_map
    (fun e =>
       match field "id" e with
       | Some (VStr id) => map (pair id) (toggles_in e)
       | _ => []
       end)
    (body card).

Definition set_visible (st : visibility) (flip : string * bool) : visibility :=
  fun id => if String.eqb id (fst flip) then snd flip else st id.

Definition apply_flips (fs : list (string * bool)) (st : visibility) : visibility :=
  fold_left set_visible fs st.

(** Activating a toggle that is shown applies the flips it declares. *)
Inductive step (card : value) : visibility -> visibility -> Prop :=
| activate : forall owner fs st,
    In (owner, fs) (toggles card) ->
    st owner = true ->
    step card st (apply_flips fs st).

Inductive reachable (card : value) : visibility -> Prop :=
| reach_initial : reachable card (initial card)
| reach_step : forall st st',
    reachable card st -> step card st st' -> reachable card st'.

Definition collapsed (st : visibility) : Prop :=
  st "showToggle" = true /\ st "fullLogBlock" = false /\ st "hideToggle" = false.

Definition expanded (st : visibility) : Prop :=
  st "showToggle" = false /\ st "fullLogBlock" = true /\ st "hideToggle" = true.

Definition inverse (fs : list (string * bool)) : list (string * bool) :=
  map (fun f => (fst f, negb (snd f))) fs.

(** The flips the spec gives the show-toggle and the hide-toggle. *)
Definition show_flips : list (string * bool) :=
  [("fullLogBlock", true); ("showToggle", false); ("hideToggle", true)].

Definition hide_flips : list (string * bool) :=
  [("fullLogBlock", false); ("showToggle", true); ("hideToggle", false)].

(** *** Fields of an alert record *)

Definition required_fields : list (list string) :=
  [["rule"; "id"]; ["rule"; "level"]; ["rule"; "description"];
   ["agent"; "id"]; ["agent"; "name"]; ["full_log"]].

Definition numeric_fields : list (list string) :=
  [["rule"; "id"]; ["rule"; "level"]; ["agent"; "id"]].

Definition missing (body : value) (path : list string) : Prop :=
  lookup path body = None.

Definition not_an_integer (rt : Runtime) (body : value) (path : list string) : Prop :=
  exists v e, lookup path body = Some v /\ int rt v = inl e.

(** ** A concrete runtime and world for the runs below *)

(** The named references of XML, as [html.entities.html5] has them. *)
Definition xml_entities : list (string * string) :=
  [("amp;", "&"); ("amp", "&"); ("lt;", "<"); ("lt", "<");
   ("gt;", ">"); ("gt", ">"); ("apos;", "'")].

(** The printable ASCII characters by their numbers, U+FFFD for the rest. *)
Definition ascii_charref (n : Z) : string :=
  if ((32 <=? n) && (n <? 127))%Z then String (ascii_of_N (Z.to_N n)) EmptyString
  else String (ascii_of_N 239) (String (ascii_of_N 191) (String (ascii_of_N 189) EmptyString)).

(** Signed decimal numerals; [repr] and [json.dumps] are not interpreted,
    no run below depends on their output. *)
Definition sample_runtime : Runtime := {|
  repr := fun _ => "<repr>";
  int_of_str := fun s => option_map Z.of_int (NilZero.int_of_string s);
  json_dumps := fun _ => "<json>";
  html5 := fun name => assoc name xml_entities;
  numeric_charref := ascii_charref
|}.

Definition record (description : list (string * value)) (agent : list (string * value)) : value :=
  VDict [("rule", VDict ([("id", VInt 100); ("level", VInt 12)] ++ description)%list);
         ("agent", VDict (agent ++ [("name", VStr "srv1")])%list);
         ("full_log", VStr "x")].

Definition sample_files (path : string) : result value :=
  if String.eqb path "/tmp/alert.json" then
    inr (record [("description", VStr "Test")] [("id", VInt 1)])
  else if String.eqb path "/tmp/empty-description.json" then
    inr (record [("description", VStr "")] [("id", VInt 1)])
  else if String.eqb path "/tmp/no-description.json" then
    inr (record [] [("id", VInt 1)])
  else if String.eqb path "/tmp/null-description.json" then
    inr (record [("description", VNone)] [("id", VInt 1)])
  else if String.eqb path "/tmp/default-description.json" then
    inr (record [("description", VStr "Wazuh Alert")] [("id", VInt 1)])
  else if String.eqb path "/tmp/no-agent-id.json" then
    inr (record [("description", VStr "Test")] [])
  else if String.eqb path "/tmp/bad-agent-id.json" then
    inr (record [("description", VStr "Test")] [("id", VStr "one")])
  else if String.eqb path "/tmp/garbage.json" then inl JSONDecodeError
  else inl OSError.

Definition sample_network (r : request) : result response :=
  if String.eqb (url r) "https://teams.example/hook?a=1&b=2" then
    inr {| status_code := 202; text := "" |}
  else if String.eqb (url r) "https://teams.example/broken" then
    inr {| status_code := 500; text := "Internal Server Error" |}
  else inl (RequestException "ConnectionError").

Definition sample_world : World := {|
  files := sample_files;
  network := sample_network
|}.

(** ** Measures for the properties of a run *)

(** The order of the severity tokens, from neutral to high. *)
Definition severity_rank (token : string) : nat :=
  if String.eqb token "attention" then 3
  else if String.eqb token "warning" then 2
  else if String.eqb token "good" then 1
  else 0.

(** The identifiers the body elements of a card declare. *)
Definition identifiers (card : value) : list string :=
  flat_map (fun e => match field "id" e with
                     | Some (VStr s) => [s]
                     | _ => []
                     end)
           (body card).

(** The identifiers the toggles of a card refer to. *)
Definition references (card : value) : list string :=
  flat_map (fun t => fst t :: map fst (snd t)) (toggles card).

(** [n] activations in a row. *)
Inductive steps (card : value) : nat -> visibility -> visibility -> Prop :=
| steps_none : forall st, steps card 0 st st
| steps_more : forall n st st' st'',
    steps card n st st' -> step card st' st'' -> steps card (S n) st st''.

(** The requests a run has sent. *)
Definition posts (t : list event) : list request :=
  flat_map (fun e => match e with
                     | Posted r => [r]
                     | Logged _ _ => []
                     end) t.

(** The entries a run has logged at error level. *)
Definition errors (t : list event) : list message :=
  flat_map (fun e => match e with
                     | Logged ERROR m => [m]
                     | _ => []
                     end) t.

(** A text is settled when decoding has nothing to change in it: after
    each of its ampersands there is no character reference, or one that
    stands for itself. *)
Fixpoint settled (rt : Runtime) (s : string) : bool :=
  match s with
  | EmptyString => true
  | String c s' =>
      (if Ascii.eqb c "&" then
         match html.match_charref s' with
         | Some g => String.eqb (html.replace_charref rt g) (String "&" g)
         | None => true
         end
       else true)
      && settled rt s'
  end.

(** [s[k:]] *)
Fixpoint drop (k : nat) (s : string) : string :=
  match k, s with
  | S k', String _ s' => drop k' s'
  | _, _ => s
  end.

(** The request [send_message] makes for a card and a webhook. *)
Definition webhook_request (rt : Runtime) (card : value) (webhook : string) : request :=
  {| url := html.unescape rt webhook;
     headers := [("Content-Type", "application/json")];
     data := json_dumps rt card;
     timeout := 60 |}.

(** Files for the edge cases of reading, and a network that answers. *)
Definition edge_files (path : string) : result value :=
  if String.eqb path "/tmp/list.json" then inr (VList [VInt 1; VInt 2])
  else if String.eqb path "/tmp/empty-object.json" then inr (VDict [])
  else if String.eqb path "/tmp/zero-description.json" then
    inr (record [("description", VInt 0)] [("id", VInt 1)])
  else if String.eqb path "/tmp/loose-types.json" then
    inr (VDict [("rule", VDict [("id", VStr "100"); ("level", VBool true);
                                ("description", VBool false)]);
                ("agent", VDict [("id", VFloat (S754_finite false 7 (-1)));
                                 ("name", VInt 5)]);
                ("full_log", VNone)])
  else inl OSError.

Definition edge_world : World := {|
  files := edge_files;
  network := fun _ => inr {| status_code := 200; text := "ok" |}
|}.

(** The card [generate_adaptive_card] returns for an alert. *)
Definition card_of (alert : Alert) : value :=
  match outcome (generate_adaptive_card alert) with
  | inr card => card
  | inl _ => VNone
  end.

(** * Properties *)

(** ** CardRenderer: severity *)

Lemma get_severity_color_cases (l : Z) :
  get_severity_color l =
    if (10 <=? l)%Z then "attention"
    else if (7 <=? l)%Z then "warning"
    else if (4 <=? l)%Z then "good"
    else "accent".
Proof.
  unfold get_severity_color. rewrite !Z.geb_leb. reflexivity.
Qed.

Ltac severity :=
  rewrite get_severity_color_cases;
  repeat match goal with
         | |- context [(?a <=? ?b)%Z] => destruct (Z.leb_spec a b); try lia
         end;
  try reflexivity.

(** C2: the severity token is a function of the rule level alone, with four
    tiers tried from the top: 10 and above give "attention", 7 to 9
    "warning", 4 to 6 "good", 0 to 3 "accent"; the levels 0, 3, 4, 6, 7, 9,
    10, 15 give accent, accent, good, good, warning, warning, attention,
    attention. *)
Theorem severity_tiers :
  (forall l : Z,
      ((10 <= l)%Z -> get_severity_color l = "attention") /\
      ((7 <= l <= 9)%Z -> get_severity_color l = "warning") /\
      ((4 <= l <= 6)%Z -> get_severity_color l = "good") /\
      ((0 <= l <= 3)%Z -> get_severity_color l = "accent")) /\
  map get_severity_color [0; 3; 4; 6; 7; 9; 10; 15]%Z =
    ["accent"; "accent"; "good"; "good";
     "warning"; "warning"; "attention"; "attention"].
Proof.
  split; [| reflexivity].
  intro l. repeat split; intro H; severity.
Qed.

Lemma severity_tiers_witness :
  get_severity_color 12 = "attention" /\ get_severity_color 8 = "warning" /\
  get_severity_color 5 = "good" /\ get_severity_color 2 = "accent".
Proof.
  destruct severity_tiers as [tiers _].
  split; [| split; [| split]].
  - apply (tiers 12%Z). lia.
  - apply (tiers 8%Z). lia.
  - apply (tiers 5%Z). lia.
  - apply (tiers 2%Z). lia.
Defined.

Lemma generate_adaptive_card_returns (alert : Alert) :
  exists card, rendered alert card.
Proof.
  eexists. unfold rendered. reflexivity.
Qed.

(** C10: the severity function answers for every integer; every level below
    4, the negative ones included, gives "accent", and the style of the
    header of a card is always one of the four tokens. *)
Theorem severity_total :
  (forall l : Z, (l < 4)%Z -> get_severity_color l = "accent") /\
  (forall l : Z, In (get_severity_color l) severity_tokens) /\
  (forall alert : Alert, exists card header rest,
      rendered alert card /\
      body card = header :: rest /\
      field "style" header = Some (VStr (get_severity_color (rule_level alert))) /\
      In (get_severity_color (rule_level alert)) severity_tokens).
Proof.
  assert (tokens : forall l, In (get_severity_color l) severity_tokens).
  { intro l. unfold severity_tokens. severity; simpl; auto. }
  split; [| split].
  - intros l H. severity.
  - exact tokens.
  - intro alert. do 3 eexists.
    split; [reflexivity |]. split; [reflexivity |]. split; [reflexivity |].
    apply tokens.
Qed.

Lemma severity_total_witness :
  get_severity_color (-7) = "accent".
Proof.
  destruct severity_total as [below _]. apply (below (-7)%Z). lia.
Defined.

(** ** CardRenderer: the document *)

(** C6: the full-log block of the card holds the full log of the alert as
    it is, whatever its length and its characters; the block is hidden at
    first, and its text is monospace, wraps, and has no line cap. *)
Theorem full_log_block (alert : Alert) :
  exists card block,
    rendered alert card /\
    element "fullLogBlock" card = Some block /\
    initially_visible block = false /\
    field "items" block =
      Some (VList [VDict [("type", VStr "TextBlock");
                          ("text", VStr (full_log alert));
                          ("wrap", VBool true);
                          ("maxLines", VInt 0);
                          ("fontType", VStr "Monospace")]]).
Proof.
  do 2 eexists. split; [reflexivity |].
  split; [reflexivity |]. split; reflexivity.
Qed.

(** C7: for the alert of rule 100, level 12, description "Test", agent 1
    named "srv1" and full log "x", the header has style "attention" and the
    description in bold, the agent line reads "Agent: srv1 (ID 1)" and the
    rule line "Rule: 100 (Level 12)", each with its label bold and its
    parenthesis italic. *)
Theorem scenario_card :
  let alert := {| rule_id := 100; rule_level := 12; rule_description := "Test";
                  agent_id := 1; agent_name := "srv1"; full_log := "x" |} in
  exists card header agent rule rest,
    rendered alert card /\
    body card = header :: agent :: rule :: rest /\
    field "style" header = Some (VStr "attention") /\
    field "items" header =
      Some (VList [VDict [("type", VStr "TextBlock"); ("text", VStr "Test");
                          ("weight", VStr "Bolder")]]) /\
    runs agent = [("Agent: ", true, false); ("srv1 ", false, false);
                  ("(ID 1)", false, true)] /\
    line_text agent = "Agent: srv1 (ID 1)" /\
    runs rule = [("Rule: ", true, false); ("100 ", false, false);
                 ("(Level 12)", false, true)] /\
    line_text rule = "Rule: 100 (Level 12)".
Proof.
  do 5 eexists. split; [reflexivity |]. split; [reflexivity |].
  repeat split; reflexivity.
Qed.

(** ** CardRenderer: the collapsible full log *)

Lemma rendered_toggles (alert : Alert) (card : value) :
  rendered alert card ->
  toggles card = [("showToggle", show_flips); ("hideToggle", hide_flips)].
Proof.
  unfold rendered. intro H. injection H as <-. reflexivity.
Qed.

Lemma rendered_initial (alert : Alert) (card : value) :
  rendered alert card -> collapsed (initial card).
Proof.
  unfold rendered. intro H. injection H as <-.
  repeat split.
Qed.

Lemma show_expands (st : visibility) : expanded (apply_flips show_flips st).
Proof. repeat split. Qed.

Lemma hide_collapses (st : visibility) : collapsed (apply_flips hide_flips st).
Proof. repeat split. Qed.

Section Toggle.

Variable card : value.
Hypothesis card_toggles :
  toggles card = [("showToggle", show_flips); ("hideToggle", hide_flips)].

Lemma step_cases (st st' : visibility) :
  step card st st' ->
  (st "showToggle" = true /\ st' = apply_flips show_flips st) \/
  (st "hideToggle" = true /\ st' = apply_flips hide_flips st).
Proof.
  intro H. destruct H as [owner fs st Hin Hshown].
  rewrite card_toggles in Hin. simpl in Hin.
  destruct Hin as [E | [E | []]]; injection E as <- <-; auto.
Qed.

Lemma step_preserves (st st' : visibility) :
  collapsed st \/ expanded st ->
  step card st st' ->
  (collapsed st -> expanded st') /\ (expanded st -> collapsed st').
Proof.
  intros Hst Hstep.
  destruct (step_cases _ _ Hstep) as [[Hshown ->] | [Hshown ->]].
  - split; intro H.
    + apply show_expands.
    + destruct H as [Hs _]. congruence.
  - split; intro H.
    + destruct H as (_ & _ & Hh). congruence.
    + apply hide_collapses.
Qed.

Hypothesis card_initial : collapsed (initial card).

Lemma reachable_states (st : visibility) :
  reachable card st -> collapsed st \/ expanded st.
Proof.
  induction 1 as [| st st' Hreach IH Hstep].
  - left. exact card_initial.
  - destruct (step_preserves _ _ IH Hstep) as [Hc He].
    destruct IH as [IH | IH]; [right | left]; auto.
Qed.

End Toggle.

(** C3: in every document state a rendered card can reach by activating
    toggles that are shown, exactly one of the full-log block and the
    show-toggle is visible. At first only the show-toggle is visible; one
    activation of it leaves the full-log block and the hide-toggle visible
    and the show-toggle hidden; the hide-toggle declares the inverse three
    flips and leads back. *)
Theorem toggle_states (alert : Alert) :
  exists card,
    rendered alert card /\
    toggles card = [("showToggle", show_flips); ("hideToggle", hide_flips)] /\
    hide_flips = inverse show_flips /\
    collapsed (initial card) /\
    (forall st, reachable card st ->
                xorb (st "fullLogBlock") (st "showToggle") = true) /\
    (forall st, reachable card st -> collapsed st \/ expanded st) /\
    step card (initial card) (apply_flips show_flips (initial card)) /\
    (forall st, step card (initial card) st -> expanded st) /\
    (forall st st', reachable card st -> expanded st -> step card st st' ->
                    st' = apply_flips hide_flips st /\ collapsed st').
Proof.
  destruct (generate_adaptive_card_returns alert) as [card Hcard].
  pose proof (rendered_toggles _ _ Hcard) as Htog.
  pose proof (rendered_initial _ _ Hcard) as Hinit.
  exists card. split; [exact Hcard |]. split; [exact Htog |].
  split; [reflexivity |]. split; [exact Hinit |].
  split; [| split; [| split; [| split]]].
  - intros st Hreach.
    destruct (reachable_states card Htog Hinit st Hreach)
      as [(Hs & Hf & _) | (Hs & Hf & _)]; rewrite Hs, Hf; reflexivity.
  - apply reachable_states; assumption.
  - apply activate with (owner := "showToggle").
    + rewrite Htog. left. reflexivity.
    + apply Hinit.
  - intros st Hstep.
    apply (step_preserves card Htog _ _ (or_introl Hinit) Hstep). exact Hinit.
  - intros st st' Hreach Hexp Hstep.
    destruct (step_cases card Htog _ _ Hstep) as [[Hshown ->] | [Hshown ->]].
    + destruct Hexp as [Hs _]. congruence.
    + split; [reflexivity | apply hide_collapses].
Qed.

Lemma toggle_states_witness :
  exists card st,
    rendered {| rule_id := 100; rule_level := 12; rule_description := "Test";
                agent_id := 1; agent_name := "srv1"; full_log := "x" |} card /\
    reachable card st /\
    xorb (st "fullLogBlock") (st "showToggle") = true.
Proof.
  destruct (toggle_states
              {| rule_id := 100; rule_level := 12; rule_description := "Test";
                 agent_id := 1; agent_name := "srv1"; full_log := "x" |})
    as (card & Hcard & _ & _ & _ & Hxor & _ & Hshow & _).
  exists card, (apply_flips show_flips (initial card)).
  split; [exact Hcard |].
  assert (Hreach : reachable card (apply_flips show_flips (initial card))).
  { apply reach_step with (st := initial card); [apply reach_initial | exact Hshow]. }
  split; [exact Hreach | apply Hxor; exact Hreach].
Defined.

(** ** AlertReader *)

Lemma getitem_field (v : value) (k : string) (x : value) :
  getitem v k = inr x <-> field k v = Some x.
Proof.
  unfold getitem, field. destruct v; try (split; discriminate).
  destruct (assoc k d); split; congruence.
Qed.

Lemma getitem_lookup2 (v : value) (k1 k2 : string) (x y : value) :
  getitem v k1 = inr x -> getitem x k2 = inr y -> lookup [k1; k2] v = Some y.
Proof.
  rewrite !getitem_field. intros H1 H2. simpl. rewrite H1. rewrite H2. reflexivity.
Qed.

Lemma getitem_lookup1 (v : value) (k : string) (x : value) :
  getitem v k = inr x -> lookup [k] v = Some x.
Proof.
  rewrite getitem_field. intros H. simpl. rewrite H. reflexivity.
Qed.

Ltac run_reader H :=
  repeat match type of H with
         | context [match ?x with inl _ => _ | inr _ => _ end] =>
             destruct x eqn:?; simpl in H; try discriminate H
         end.

(** What a successful read has found in the record. *)
Lemma get_alert_details_returned rt w path alert :
  outcome (get_alert_details rt w path) = inr alert ->
  exists body id level description aid name log,
    files w path = inr body /\
    lookup ["rule"; "id"] body = Some id /\
    int rt id = inr (rule_id alert) /\
    lookup ["rule"; "level"] body = Some level /\
    int rt level = inr (rule_level alert) /\
    lookup ["rule"; "description"] body = Some description /\
    rule_description alert =
      (if nonempty (str rt description) then str rt description
       else "Wazuh Alert") /\
    lookup ["agent"; "id"] body = Some aid /\
    int rt aid = inr (agent_id alert) /\
    lookup ["agent"; "name"] body = Some name /\
    agent_name alert = str rt name /\
    lookup ["full_log"] body = Some log /\
    full_log alert = str rt log.
Proof.
  unfold get_alert_details, outcome, logging_debug, emit, lift, bind, ret.
  intro H. simpl in H. run_reader H.
  injection H as <-.
  cbn [rule_id rule_level rule_description agent_id agent_name full_log].
  repeat match goal with
         | E : getitem ?v ?k = inr ?x, E' : getitem ?v ?k = inr ?y |- _ =>
             assert (x = y) by congruence; subst y; clear E'
         end.
  do 7 eexists.
  repeat match goal with
         | |- _ /\ _ => split
         end;
    eauto using getitem_lookup2, getitem_lookup1.
Qed.

Lemma lookup2_getitem (v : value) (k1 k2 : string) (y : value) :
  lookup [k1; k2] v = Some y ->
  exists x, getitem v k1 = inr x /\ getitem x k2 = inr y.
Proof.
  simpl. destruct (field k1 v) as [x |] eqn:E1; [| discriminate].
  destruct (field k2 x) as [y' |] eqn:E2; [| discriminate].
  intro H. injection H as <-. exists x. rewrite !getitem_field. auto.
Qed.

(** A record that has the six fields, the numeric ones convertible, is
    read into an alert, after one debug entry holding the record. *)
Lemma get_alert_details_complete rt w path body id level description aid name log
      n_id n_level n_aid :
  files w path = inr body ->
  lookup ["rule"; "id"] body = Some id -> int rt id = inr n_id ->
  lookup ["rule"; "level"] body = Some level -> int rt level = inr n_level ->
  lookup ["rule"; "description"] body = Some description ->
  lookup ["agent"; "id"] body = Some aid -> int rt aid = inr n_aid ->
  lookup ["agent"; "name"] body = Some name ->
  lookup ["full_log"] body = Some log ->
  get_alert_details rt w path =
    ([Logged DEBUG (Object body)],
     inr {| rule_id := n_id;
            rule_level := n_level;
            rule_description :=
              if nonempty (str rt description) then str rt description
              else "Wazuh Alert";
            agent_id := n_aid;
            agent_name := str rt name;
            full_log := str rt log |}).
Proof.
  intros Hfile Hid Iid Hlevel Ilevel Hdesc Haid Iaid Hname Hlog.
  apply lookup2_getitem in Hid as (rule & Hrule & Hid).
  apply lookup2_getitem in Hlevel as (rule' & Hrule' & Hlevel).
  apply lookup2_getitem in Hdesc as (rule'' & Hrule'' & Hdesc).
  apply lookup2_getitem in Haid as (agent & Hagent & Haid).
  apply lookup2_getitem in Hname as (agent' & Hagent' & Hname).
  assert (rule' = rule) by congruence. assert (rule'' = rule) by congruence.
  assert (agent' = agent) by congruence. subst.
  assert (Hlog' : getitem body "full_log" = inr log).
  { apply getitem_field. simpl in Hlog. destruct (field "full_log" body); congruence. }
  unfold get_alert_details, logging_debug, emit, lift, bind, ret.
  rewrite Hfile, Hrule, Hid, Iid, Hlevel, Ilevel, Hdesc, Hagent, Haid, Iaid,
    Hname, Hlog'.
  reflexivity.
Qed.

(** C5: reading fails with an error whenever the record lacks one of
    rule.id, rule.level, rule.description, agent.id, agent.name, full_log,
    or one of rule.id, rule.level, agent.id cannot be made an integer; so a
    record without agent.id is never read into an alert. *)
Theorem get_alert_details_fails rt w path body :
  files w path = inr body ->
  (exists field, In field required_fields /\ missing body field) \/
  (exists field, In field numeric_fields /\ not_an_integer rt body field) ->
  exists e, outcome (get_alert_details rt w path) = inl e.
Proof.
  intros Hfile Hbad.
  destruct (outcome (get_alert_details rt w path)) as [e | alert] eqn:Hout.
  - exists e. reflexivity.
  - exfalso.
    apply get_alert_details_returned in Hout
      as (body' & id & level & description & aid & name & log & Hfile' &
          Hid & Iid & Hlevel & Ilevel & Hdesc & _ & Haid & Iaid & Hname & _ &
          Hlog & _).
    assert (body' = body) by congruence. subst body'.
    destruct Hbad as [(p & Hin & Hmiss) | (p & Hin & v & e & Hv & He)].
    + unfold missing in Hmiss. simpl in Hin.
      repeat (destruct Hin as [<- | Hin]; [congruence |]). contradiction.
    + simpl in Hin.
      repeat (destruct Hin as [<- | Hin]; [congruence |]). contradiction.
Qed.

Lemma get_alert_details_fails_witness :
  (exists e, outcome (get_alert_details sample_runtime sample_world
                                        "/tmp/no-agent-id.json") = inl e) /\
  (exists e, outcome (get_alert_details sample_runtime sample_world
                                        "/tmp/bad-agent-id.json") = inl e).
Proof.
  split.
  - apply (get_alert_details_fails sample_runtime sample_world
             "/tmp/no-agent-id.json"
             (record [("description", VStr "Test")] [])).
    + reflexivity.
    + left. exists ["agent"; "id"]. split; [simpl; tauto | reflexivity].
  - apply (get_alert_details_fails sample_runtime sample_world
             "/tmp/bad-agent-id.json"
             (record [("description", VStr "Test")] [("id", VStr "one")])).
    + reflexivity.
    + right. exists ["agent"; "id"]. split; [simpl; tauto |].
      exists (VStr "one"), ValueError. split; reflexivity.
Defined.

(** C1, as the code has it: when rule.description is there, the alert's
    description is "Wazuh Alert" if the text of the source value is empty
    and that text unchanged otherwise, so that it equals "Wazuh Alert" iff
    the text is empty or is "Wazuh Alert" itself; the text of a string is
    the string. When rule.description is not there, no alert is built:
    reading raises. *)
Theorem rule_description_default rt w path body :
  files w path = inr body ->
  (forall source alert,
      lookup ["rule"; "description"] body = Some source ->
      outcome (get_alert_details rt w path) = inr alert ->
      (str rt source = "" -> rule_description alert = "Wazuh Alert") /\
      (str rt source <> "" -> rule_description alert = str rt source) /\
      (rule_description alert = "Wazuh Alert" <->
       str rt source = "" \/ str rt source = "Wazuh Alert")) /\
  (forall s, str rt (VStr s) = s) /\
  (lookup ["rule"; "description"] body = None ->
   exists e, outcome (get_alert_details rt w path) = inl e).
Proof.
  intro Hfile. split; [| split].
  - intros source alert Hsource Hout.
    apply get_alert_details_returned in Hout
      as (body' & _ & _ & description & _ & _ & _ & Hfile' &
          _ & _ & _ & _ & Hdesc & Hrd & _).
    assert (body' = body) by congruence. subst body'.
    assert (description = source) by congruence. subst description.
    rewrite Hrd. destruct (str rt source) as [| c s]; simpl.
    + repeat split; auto; congruence.
    + repeat split; auto; try congruence.
      intros [H | H]; [discriminate | exact H].
  - reflexivity.
  - intro Habsent.
    destruct (outcome (get_alert_details rt w path)) as [e | alert] eqn:Hout.
    + exists e. reflexivity.
    + exfalso.
      apply get_alert_details_returned in Hout
        as (body' & _ & _ & description & _ & _ & _ & Hfile' &
            _ & _ & _ & _ & Hdesc & _).
      congruence.
Qed.

Lemma rule_description_default_witness :
  let alert := {| rule_id := 100; rule_level := 12;
                  rule_description := "Wazuh Alert";
                  agent_id := 1; agent_name := "srv1"; full_log := "x" |} in
  outcome (get_alert_details sample_runtime sample_world
                             "/tmp/empty-description.json") = inr alert /\
  rule_description alert = "Wazuh Alert".
Proof.
  intro alert.
  destruct (rule_description_default sample_runtime sample_world
              "/tmp/empty-description.json"
              (record [("description", VStr "")] [("id", VInt 1)])
              eq_refl) as [present _].
  destruct (present (VStr "") alert eq_refl eq_refl) as [empty _].
  split; [reflexivity | exact (empty eq_refl)].
Defined.

(** C1 as stated does not hold: a record without rule.description is not
    given the default, reading it raises [KeyError]; and a null
    description is rendered as "None". *)
Lemma rule_description_absent :
  lookup ["rule"; "description"] (record [] [("id", VInt 1)]) = None /\
  get_alert_details sample_runtime sample_world "/tmp/no-description.json" =
    ([Logged DEBUG (Object (record [] [("id", VInt 1)]))],
     inl (KeyError "description")) /\
  exists alert,
    outcome (get_alert_details sample_runtime sample_world
                               "/tmp/null-description.json") = inr alert /\
    rule_description alert = "None".
Proof.
  split; [reflexivity |]. split; [reflexivity |].
  eexists. split; reflexivity.
Qed.

(** ** Dispatcher *)

Lemma ok_false (r : response) :
  ok r = false <-> (400 <= status_code r < 600)%Z.
Proof.
  unfold ok. rewrite negb_false_iff, andb_true_iff, Z.leb_le, Z.ltb_lt. tauto.
Qed.

(** A response that is not an error is reported as a success. *)
Lemma send_message_success rt w card webhook r :
  network w {| url := html.unescape rt webhook;
               headers := [("Content-Type", "application/json")];
               data := json_dumps rt card; timeout := 60 |} = inr r ->
  ok r = true ->
  outcome (send_message rt w card webhook) = inr tt /\
  In (Logged INFO (Text "Successfully sent message to Power Automate"))
     (trace (send_message rt w card webhook)).
Proof.
  intros Hnet Hok.
  unfold send_message, requests_post, logging_info, logging_error, emit, lift, bind.
  rewrite Hnet, Hok. simpl. auto 10.
Qed.

(** C4: when the POST returns a response whose status is not a success,
    [send_message] logs an error with the status code and the body of the
    response and returns normally; when the POST raises, [send_message]
    raises the same exception, right after the request. *)
Theorem send_message_failures rt w card webhook :
  let req := {| url := html.unescape rt webhook;
                headers := [("Content-Type", "application/json")];
                data := json_dumps rt card; timeout := 60 |} in
  let sent :=
    [Logged INFO (Text ("Sending message to Power Automate: " ++ json_dumps rt card));
     Logged INFO (Text ("Using webhook URL: " ++ html.unescape rt webhook));
     Posted req] in
  (forall r, network w req = inr r -> ok r = false ->
     send_message rt w card webhook =
       ((sent ++
         [Logged ERROR (Text "Failed to send message!");
          Logged ERROR (Text ("Response code: " ++ str_of_int (status_code r)
                              ++ ", response body: " ++ text r))])%list,
        inr tt)) /\
  (forall e, network w req = inl e ->
     send_message rt w card webhook = (sent, inl e)).
Proof.
  intros req sent. subst req sent. split.
  - intros r Hnet Hok.
    unfold send_message, requests_post, logging_info, logging_error, emit, lift, bind.
    rewrite Hnet, Hok. reflexivity.
  - intros e Hnet.
    unfold send_message, requests_post, logging_info, logging_error, emit, lift, bind.
    rewrite Hnet. reflexivity.
Qed.

Lemma send_message_failures_witness :
  (outcome (send_message sample_runtime sample_world VNone
                         "https://teams.example/broken") = inr tt /\
   In (Logged ERROR
         (Text "Response code: 500, response body: Internal Server Error"))
      (trace (send_message sample_runtime sample_world VNone
                           "https://teams.example/broken"))) /\
  outcome (send_message sample_runtime sample_world VNone
                        "https://unreachable.example/") =
    inl (RequestException "ConnectionError").
Proof.
  destruct (send_message_failures sample_runtime sample_world VNone
              "https://teams.example/broken") as [status _].
  destruct (send_message_failures sample_runtime sample_world VNone
              "https://unreachable.example/") as [_ transport].
  split.
  - rewrite (status {| status_code := 500; text := "Internal Server Error" |}
               eq_refl eq_refl).
    split; [reflexivity | simpl; auto 10].
  - rewrite (transport (RequestException "ConnectionError") eq_refl).
    reflexivity.
Defined.

Lemma unescape_without_ampersand rt (s : string) :
  html.contains "&" s = false -> html.unescape rt s = s.
Proof.
  unfold html.unescape. intros ->. reflexivity.
Qed.

Lemma span_append (p : ascii -> bool) (s a b : string) :
  html.span p s = (a, b) -> s = a ++ b.
Proof.
  revert a b. induction s as [| c s IH]; intros a b H; simpl in H.
  - injection H as <- <-. reflexivity.
  - destruct (p c).
    + destruct (html.span p s) as [a' b']. injection H as <- <-.
      simpl. f_equal. apply IH. reflexivity.
    + injection H as <- <-. reflexivity.
Qed.

Lemma span_name_append (n : nat) (s a b : string) :
  html.span_name n s = (a, b) -> s = a ++ b.
Proof.
  revert n a b. induction s as [| c s IH]; intros n a b H; simpl in H.
  - injection H as <- <-. reflexivity.
  - destruct (html.is_continuation c).
    + destruct (html.span_name n s) as [a' b'] eqn:E. injection H as <- <-.
      simpl. f_equal. exact (IH _ _ _ E).
    + destruct (html.is_name_char c); [| injection H as <- <-; reflexivity].
      destruct n as [| n]; [injection H as <- <-; reflexivity |].
      destruct (html.span_name n s) as [a' b'] eqn:E. injection H as <- <-.
      simpl. f_equal. exact (IH _ _ _ E).
Qed.

Lemma append_one (a b : string) (c : ascii) :
  (a ++ String c EmptyString) ++ b = a ++ String c b.
Proof.
  induction a as [| x a IH]; simpl; [reflexivity | rewrite IH; reflexivity].
Qed.

Lemma with_semicolon_prefix (a b : string) :
  exists rest, a ++ b = html.with_semicolon a b ++ rest.
Proof.
  unfold html.with_semicolon.
  destruct b as [| c b]; [exists EmptyString; reflexivity |].
  destruct (Ascii.eqb_spec c ";") as [-> | Hc].
  - exists b. rewrite append_one. reflexivity.
  - exists (String c b).
    destruct c as [[] [] [] [] [] [] [] []]; try reflexivity.
    contradiction Hc. reflexivity.
Qed.

(** What the pattern captures is what follows the ampersand. *)
Lemma match_charref_prefix (s g : string) :
  html.match_charref s = Some g -> exists rest, s = g ++ rest.
Proof.
  unfold html.match_charref. intro H.
  assert (name : forall s0,
             (let (name, rest) := html.span_name 32 s0 in
              if nonempty name then Some (html.with_semicolon name rest) else None)
             = Some g -> exists rest, s0 = g ++ rest).
  { intros s0 H0. destruct (html.span_name 32 s0) as [a b] eqn:E.
    destruct (nonempty a); [| discriminate H0]. injection H0 as <-.
    rewrite (span_name_append _ _ _ _ E). apply with_semicolon_prefix. }
  destruct s as [| c s1]; [discriminate H |].
  destruct (Ascii.eqb_spec c "#") as [-> | Hc].
  - destruct s1 as [| d s2]; [discriminate H |].
    destruct (html.is_digit d).
    + destruct (html.span html.is_digit (String d s2)) as [a b] eqn:E.
      injection H as <-. rewrite (span_append _ _ _ _ E).
      destruct (with_semicolon_prefix a b) as [rest Hrest].
      exists rest. simpl. rewrite Hrest. reflexivity.
    + destruct (Ascii.eqb d "x" || Ascii.eqb d "X"); [| discriminate H].
      destruct (html.span html.is_hex_digit s2) as [a b] eqn:E.
      destruct (nonempty a); [| discriminate H]. injection H as <-.
      rewrite (span_append _ _ _ _ E).
      destruct (with_semicolon_prefix a b) as [rest Hrest].
      exists rest. simpl. rewrite Hrest. reflexivity.
  - destruct c as [[] [] [] [] [] [] [] []];
      try (match goal with
           | |- exists rest, ?s0 = _ => exact (name s0 H)
           end).
    contradiction Hc. reflexivity.
Qed.

Lemma drop_append (g rest : string) : drop (String.length g) (g ++ rest) = rest.
Proof.
  induction g as [| c g IH]; simpl; [destruct rest; reflexivity | exact IH].
Qed.

Lemma drop_zero (s : string) : drop 0 s = s.
Proof. destruct s; reflexivity. Qed.

(** On a settled text the scan copies what it does not pass over. *)
Lemma sub_charref_settled rt (s : string) :
  settled rt s = true -> forall k, html.sub_charref rt k s = drop k s.
Proof.
  induction s as [| c s IH]; intros Hs k.
  - destruct k; reflexivity.
  - simpl in Hs. apply andb_true_iff in Hs as [Hc Hs].
    specialize (IH Hs).
    destruct k as [| k]; [| simpl; apply IH].
    simpl. destruct (Ascii.eqb c "&") eqn:Ec.
    + apply Ascii.eqb_eq in Ec. subst c.
      destruct (html.match_charref s) as [g |] eqn:Hg.
      * apply String.eqb_eq in Hc. rewrite Hc, IH.
        destruct (match_charref_prefix _ _ Hg) as [rest ->].
        rewrite drop_append. reflexivity.
      * rewrite IH, drop_zero. reflexivity.
    + rewrite IH, drop_zero. reflexivity.
Qed.

Lemma unescape_settled rt (s : string) :
  settled rt s = true -> html.unescape rt s = s.
Proof.
  intro H. unfold html.unescape.
  destruct (html.contains "&" s); [| reflexivity].
  rewrite (sub_charref_settled rt s H). apply drop_zero.
Qed.

Lemma settled_without_ampersand rt (s : string) :
  html.contains "&" s = false -> settled rt s = true.
Proof.
  induction s as [| c s IH]; simpl; [reflexivity |].
  intro H. apply orb_false_iff in H as [Hc Hs].
  rewrite Hc, (IH Hs). reflexivity.
Qed.

(** C8, as the code has it: decoding changes nothing in a settled text,
    one in which no ampersand is followed by a character reference that
    stands for something else than itself. So decoding twice gives what
    decoding once gives for every URL whose decoded form is settled, as
    it is when it has no ampersand, and as it is for a URL escaped once
    whose separators come back as plain ampersands. *)
Theorem unescape_idempotent_when_settled rt :
  (forall s, settled rt s = true -> html.unescape rt s = s) /\
  (forall u, settled rt (html.unescape rt u) = true ->
             html.unescape rt (html.unescape rt u) = html.unescape rt u) /\
  (forall s, html.contains "&" s = false -> settled rt s = true).
Proof.
  split; [| split].
  - apply unescape_settled.
  - intros u H. apply unescape_settled. exact H.
  - apply settled_without_ampersand.
Qed.

Lemma unescape_idempotent_when_settled_witness :
  html.unescape sample_runtime "https://teams.example/hook?a=1&amp;b=2&amp;c=3" =
    "https://teams.example/hook?a=1&b=2&c=3" /\
  html.unescape sample_runtime
    (html.unescape sample_runtime "https://teams.example/hook?a=1&amp;b=2&amp;c=3") =
    html.unescape sample_runtime "https://teams.example/hook?a=1&amp;b=2&amp;c=3".
Proof.
  destruct (unescape_idempotent_when_settled sample_runtime) as (_ & twice & _).
  split; [reflexivity |].
  apply (twice "https://teams.example/hook?a=1&amp;b=2&amp;c=3"). reflexivity.
Defined.

(** C8 as stated does not hold: a URL escaped twice is decoded one level at
    a time. *)
Lemma unescape_not_idempotent :
  html.unescape sample_runtime "https://teams.example/hook?a=1&amp;amp;b=2" =
    "https://teams.example/hook?a=1&amp;b=2" /\
  html.unescape sample_runtime "https://teams.example/hook?a=1&amp;b=2" =
    "https://teams.example/hook?a=1&b=2" /\
  html.unescape sample_runtime
    (html.unescape sample_runtime "https://teams.example/hook?a=1&amp;amp;b=2") <>
    html.unescape sample_runtime "https://teams.example/hook?a=1&amp;amp;b=2".
Proof.
  split; [reflexivity |]. split; [reflexivity |]. discriminate.
Qed.

(** ** Entry point *)

(** With fewer than the three positional inputs nothing is read or sent. *)
Lemma handle_alert_short rt w (args : list string) :
  (length args < 4)%nat -> handle_alert rt w args = ([], inl IndexError).
Proof.
  intro H. unfold handle_alert, lift, bind, index.
  destruct args as [| a0 [| a1 [| a2 [| a3 rest]]]]; simpl in *; try reflexivity.
  lia.
Qed.

(** C9: of an argument vector the entry point uses the first positional
    argument as the path of the alert file and the third as the webhook
    URL; the program name, the second positional argument and whatever
    follows the third change nothing in what is read, rendered, sent and
    logged. *)
Theorem handle_alert_arguments rt w prog path unused webhook (extra : list string) :
  handle_alert rt w (prog :: path :: unused :: webhook :: extra) =
    (alert <- get_alert_details rt w path ;;
     adaptive_card <- generate_adaptive_card alert ;;
     send_message rt w adaptive_card webhook) /\
  (forall prog' unused' extra',
      handle_alert rt w (prog' :: path :: unused' :: webhook :: extra') =
      handle_alert rt w (prog :: path :: unused :: webhook :: extra)).
Proof.
  assert (uses : forall p u x,
             handle_alert rt w (p :: path :: u :: webhook :: x) =
               (alert <- get_alert_details rt w path ;;
                adaptive_card <- generate_adaptive_card alert ;;
                send_message rt w adaptive_card webhook)).
  { intros p u x. unfold handle_alert, index, lift. simpl.
    destruct (get_alert_details rt w path) as [t [e | alert]]; simpl.
    - reflexivity.
    - destruct (send_message rt w _ webhook) as [t' r]. reflexivity. }
  split.
  - apply uses.
  - intros. rewrite !uses. reflexivity.
Qed.

(** The process ends normally when the webhook answers with an error
    status, and with the exception when reading or sending raises. *)
Lemma main_outcome rt w (argv : list string) :
  outcome (main rt w argv) = outcome (handle_alert rt w argv) /\
  (forall e, outcome (handle_alert rt w argv) = inl e ->
             In (Logged ERROR (Failure e)) (trace (main rt w argv))).
Proof.
  unfold main, logging_debug, emit, bind, outcome, trace.
  destruct (handle_alert rt w argv) as [t [e | []]]; simpl.
  - split; [reflexivity |]. intros e' H. injection H as <-.
    right. apply in_or_app. right. left. reflexivity.
  - split; [reflexivity | discriminate].
Qed.

Example main_http_500 :
  outcome (main sample_runtime sample_world
             ["custom-teams.py"; "/tmp/alert.json"; ""; "https://teams.example/broken"])
  = inr tt.
Proof. reflexivity. Qed.

Example main_missing_agent_id :
  outcome (main sample_runtime sample_world
             ["custom-teams.py"; "/tmp/no-agent-id.json"; "";
              "https://teams.example/hook?a=1&amp;b=2"])
  = inl (KeyError "id").
Proof. reflexivity. Qed.

(** * Further properties of the code *)

(** ** Severity *)

(** X1: the token tells the tier: "attention" is returned exactly for the
    levels from 10 up, "warning" exactly for 7 to 9, "good" exactly for 4
    to 6 and "accent" exactly for the levels below 4. *)
Theorem severity_inverse (l : Z) :
  (get_severity_color l = "attention" <-> (10 <= l)%Z) /\
  (get_severity_color l = "warning" <-> (7 <= l <= 9)%Z) /\
  (get_severity_color l = "good" <-> (4 <= l <= 6)%Z) /\
  (get_severity_color l = "accent" <-> (l < 4)%Z).
Proof.
  rewrite get_severity_color_cases.
  destruct (Z.leb_spec 10 l); [| destruct (Z.leb_spec 7 l);
                                  [| destruct (Z.leb_spec 4 l)]];
    repeat split; intros; try lia; try discriminate; reflexivity.
Qed.

Lemma severity_inverse_witness :
  get_severity_color 8 = "warning".
Proof.
  destruct (severity_inverse 8) as (_ & [_ tier] & _).
  apply tier. lia.
Defined.

(** X2: a higher level never gets a lower severity. *)
Theorem severity_monotone (l l' : Z) :
  (l <= l')%Z ->
  severity_rank (get_severity_color l) <= severity_rank (get_severity_color l').
Proof.
  intro H. rewrite !get_severity_color_cases.
  repeat match goal with
         | |- context [(?a <=? ?b)%Z] => destruct (Z.leb_spec a b); try lia
         end;
    unfold severity_rank; cbn; lia.
Qed.

Lemma severity_monotone_witness :
  severity_rank (get_severity_color 5) <= severity_rank (get_severity_color 11).
Proof.
  apply (severity_monotone 5 11). lia.
Defined.

(** ** The card *)

Lemma append_assoc (a b c : string) : (a ++ b) ++ c = a ++ b ++ c.
Proof.
  induction a as [| x a IH]; simpl; [reflexivity | rewrite IH; reflexivity].
Qed.

Lemma length_append (a b : string) :
  String.length (a ++ b) = String.length a + String.length b.
Proof.
  induction a as [| x a IH]; simpl; [reflexivity | rewrite IH; reflexivity].
Qed.

Lemma append_cancel_r (a b t : string) : a ++ t = b ++ t -> a = b.
Proof.
  revert b. induction a as [| x a IH]; intros [| y b] H; simpl in H.
  - reflexivity.
  - apply (f_equal String.length) in H. simpl in H.
    rewrite length_append in H. lia.
  - apply (f_equal String.length) in H. simpl in H.
    rewrite length_append in H. lia.
  - injection H as -> H. f_equal. apply IH. exact H.
Qed.

Lemma str_of_int_parsed (z : Z) :
  NilZero.int_of_string (str_of_int z) = Some (Z.to_int z).
Proof.
  unfold str_of_int. apply NilZero.isi.
  - destruct z; simpl; try discriminate.
    intro H. injection H as H. exact (DecimalPos.Unsigned.to_uint_nonnil _ H).
  - destruct z; simpl; try discriminate.
    intro H. injection H as H. exact (DecimalPos.Unsigned.to_uint_nonnil _ H).
Qed.

Lemma str_of_int_inj (z z' : Z) : str_of_int z = str_of_int z' -> z = z'.
Proof.
  intro H. apply DecimalZ.to_int_inj.
  pose proof (str_of_int_parsed z) as P. rewrite H, str_of_int_parsed in P.
  congruence.
Qed.

(** X3: for every alert the header holds the description in bold, the
    agent line reads "Agent: <name> (ID <id>)" and the rule line
    "Rule: <id> (Level <level>)", the numbers in decimal, each line made of
    a bold label, a plain run and an italic parenthesis. *)
Theorem card_lines (alert : Alert) :
  exists card header agent rule rest,
    rendered alert card /\
    body card = header :: agent :: rule :: rest /\
    field "items" header =
      Some (VList [VDict [("type", VStr "TextBlock");
                          ("text", VStr (rule_description alert));
                          ("weight", VStr "Bolder")]]) /\
    line_text agent =
      "Agent: " ++ agent_name alert ++ " (ID " ++ str_of_int (agent_id alert) ++ ")" /\
    line_text rule =
      "Rule: " ++ str_of_int (rule_id alert) ++ " (Level "
               ++ str_of_int (rule_level alert) ++ ")" /\
    map (fun r => (snd (fst r), snd r)) (runs agent) =
      [(true, false); (false, false); (false, true)] /\
    map (fun r => (snd (fst r), snd r)) (runs rule) =
      [(true, false); (false, false); (false, true)].
Proof.
  do 5 eexists. split; [reflexivity |]. split; [reflexivity |].
  split; [reflexivity |].
  unfold line_text, runs. cbn [elements field assoc String.eqb Ascii.eqb Bool.eqb
                               map fst snd text_of String.concat].
  split; [| split; [| split; reflexivity]].
  - cbn [append]. rewrite append_assoc. reflexivity.
  - cbn [append]. rewrite append_assoc. reflexivity.
Qed.

(** X4: the identifiers of a card are showToggle, hideToggle and
    fullLogBlock, each declared once, and every identifier a toggle
    refers to, its holder included, is one of them. *)
Theorem card_references (alert : Alert) :
  exists card,
    rendered alert card /\
    identifiers card = ["showToggle"; "hideToggle"; "fullLogBlock"] /\
    NoDup (identifiers card) /\
    (forall id, In id (references card) -> In id (identifiers card)).
Proof.
  eexists. split; [reflexivity |].
  split; [reflexivity |]. split.
  - repeat constructor; simpl; intuition discriminate.
  - intros id H. cbv in H. cbv.
    repeat (destruct H as [<- | H]; [tauto |]). contradiction.
Qed.

Lemma card_references_witness :
  exists card,
    rendered {| rule_id := 100; rule_level := 12; rule_description := "Test";
                agent_id := 1; agent_name := "srv1"; full_log := "x" |} card /\
    In "fullLogBlock" (identifiers card).
Proof.
  destruct (card_references
              {| rule_id := 100; rule_level := 12; rule_description := "Test";
                 agent_id := 1; agent_name := "srv1"; full_log := "x" |})
    as (card & Hcard & _ & _ & Hrefs).
  exists card. split; [exact Hcard |].
  apply Hrefs. unfold references.
  rewrite (rendered_toggles _ _ Hcard). simpl. auto.
Defined.

(** X5: the card keeps every field of the alert: two alerts that render
    to the same card are the same alert. *)
Theorem card_injective (alert alert' : Alert) (card : value) :
  rendered alert card -> rendered alert' card -> alert = alert'.
Proof.
  unfold rendered. intros H H'. rewrite <- H' in H. clear H'.
  destruct alert as [rid rl rd aid an fl], alert' as [rid' rl' rd' aid' an' fl'].
  unfold generate_adaptive_card, logging_info, emit, bind, ret in H.
  cbn [rule_id rule_level rule_description agent_id agent_name full_log] in H.
  injection H as _ Hrd Han Haid Hrid Hrl Hfl.
  apply append_cancel_r in Han.
  apply append_cancel_r, str_of_int_inj in Haid.
  apply append_cancel_r, str_of_int_inj in Hrid.
  apply append_cancel_r, str_of_int_inj in Hrl.
  subst. reflexivity.
Qed.

Lemma card_injective_witness :
  let alert := {| rule_id := 100; rule_level := 12; rule_description := "Test";
                  agent_id := 1; agent_name := "srv1"; full_log := "x" |} in
  exists card, rendered alert card /\ alert = alert.
Proof.
  intro alert.
  destruct (generate_adaptive_card_returns alert) as [card H].
  exists card. split; [exact H | exact (card_injective alert alert card H H)].
Defined.

(** ** The collapsible full log, activation after activation *)

Lemma steps_parity (card : value) :
  toggles card = [("showToggle", show_flips); ("hideToggle", hide_flips)] ->
  forall n st0 st,
    steps card n st0 st -> collapsed st0 ->
    if Nat.even n then collapsed st else expanded st.
Proof.
  intros Htog n st0 st H H0.
  induction H as [st | n st st' st'' Hsteps IH Hstep].
  - exact H0.
  - specialize (IH H0). rewrite Nat.even_succ, <- Nat.negb_even.
    destruct (Nat.even n); simpl.
    + apply (step_preserves card Htog _ _ (or_introl IH) Hstep). exact IH.
    + apply (step_preserves card Htog _ _ (or_intror IH) Hstep). exact IH.
Qed.

(** X6: a rendered card never gets stuck and alternates: whatever the
    number of activations there is a state reached by that many, and after
    an even number of them the card is collapsed (show-toggle only), after
    an odd number expanded (full-log block and hide-toggle only). *)
Theorem toggle_parity (alert : Alert) :
  exists card,
    rendered alert card /\
    (forall n, exists st, steps card n (initial card) st) /\
    (forall n st, steps card n (initial card) st ->
                  if Nat.even n then collapsed st else expanded st).
Proof.
  destruct (generate_adaptive_card_returns alert) as [card Hcard].
  pose proof (rendered_toggles _ _ Hcard) as Htog.
  pose proof (rendered_initial _ _ Hcard) as Hinit.
  assert (parity : forall n st, steps card n (initial card) st ->
                     if Nat.even n then collapsed st else expanded st).
  { intros n st H. exact (steps_parity card Htog n _ st H Hinit). }
  exists card. split; [exact Hcard |]. split; [| exact parity].
  induction n as [| n [st Hst]].
  - exists (initial card). constructor.
  - pose proof (parity n st Hst) as P.
    destruct (Nat.even n).
    + exists (apply_flips show_flips st).
      apply steps_more with (st' := st); [exact Hst |].
      apply activate with (owner := "showToggle").
      * rewrite Htog. left. reflexivity.
      * apply P.
    + exists (apply_flips hide_flips st).
      apply steps_more with (st' := st); [exact Hst |].
      apply activate with (owner := "hideToggle").
      * rewrite Htog. right. left. reflexivity.
      * apply P.
Qed.

Lemma toggle_parity_witness :
  exists card st,
    rendered {| rule_id := 100; rule_level := 12; rule_description := "Test";
                agent_id := 1; agent_name := "srv1"; full_log := "x" |} card /\
    steps card 1 (initial card) st /\ expanded st.
Proof.
  destruct (toggle_parity
              {| rule_id := 100; rule_level := 12; rule_description := "Test";
                 agent_id := 1; agent_name := "srv1"; full_log := "x" |})
    as (card & Hcard & progress & parity).
  destruct (progress 1) as [st Hst].
  exists card, st. split; [exact Hcard |]. split; [exact Hst |].
  exact (parity 1 st Hst).
Defined.

(** ** Reading an alert *)

(** X7: reading returns an alert exactly when the file decodes to a record
    that has the six fields with rule.id, rule.level and agent.id
    convertible by [int]; the alert then holds those integers, the texts
    of agent.name and full_log, and the description or its default.
    Nothing is asked of the types of description, name and full_log. *)
Theorem get_alert_details_returns_iff rt w path alert :
  outcome (get_alert_details rt w path) = inr alert <->
  exists body id level description aid name log,
    files w path = inr body /\
    lookup ["rule"; "id"] body = Some id /\
    int rt id = inr (rule_id alert) /\
    lookup ["rule"; "level"] body = Some level /\
    int rt level = inr (rule_level alert) /\
    lookup ["rule"; "description"] body = Some description /\
    rule_description alert =
      (if nonempty (str rt description) then str rt description
       else "Wazuh Alert") /\
    lookup ["agent"; "id"] body = Some aid /\
    int rt aid = inr (agent_id alert) /\
    lookup ["agent"; "name"] body = Some name /\
    agent_name alert = str rt name /\
    lookup ["full_log"] body = Some log /\
    full_log alert = str rt log.
Proof.
  split.
  - apply get_alert_details_returned.
  - intros (body & id & level & description & aid & name & log & Hfile &
            Hid & Iid & Hlevel & Ilevel & Hdesc & Hrd & Haid & Iaid & Hname &
            Han & Hlog & Hfl).
    rewrite (get_alert_details_complete rt w path body id level description
               aid name log _ _ _ Hfile Hid Iid Hlevel Ilevel Hdesc Haid Iaid
               Hname Hlog).
    destruct alert as [rid rl rd aid' an fl]. simpl in *. subst. reflexivity.
Qed.

Lemma get_alert_details_returns_iff_witness :
  outcome (get_alert_details sample_runtime edge_world "/tmp/loose-types.json") =
    inr {| rule_id := 100; rule_level := 1; rule_description := "False";
           agent_id := 3; agent_name := "5"; full_log := "None" |}.
Proof.
  apply (get_alert_details_returns_iff sample_runtime edge_world
           "/tmp/loose-types.json").
  do 7 eexists. repeat split; reflexivity.
Defined.

(** The log of a reading, by what the file holds. *)
Lemma get_alert_details_trace_cases rt w path :
  (forall e, files w path = inl e -> get_alert_details rt w path = ([], inl e)) /\
  (forall body, files w path = inr body ->
                trace (get_alert_details rt w path) = [Logged DEBUG (Object body)]).
Proof.
  split.
  - intros e H. unfold get_alert_details, lift, bind. rewrite H. reflexivity.
  - intros body H.
    unfold get_alert_details, trace, logging_debug, emit, lift, bind, ret.
    rewrite H. simpl.
    repeat match goal with
           | |- context [match ?x with inl _ => _ | inr _ => _ end] =>
               destruct x; simpl
           end;
      reflexivity.
Qed.

(** X8: a file that cannot be opened or decoded makes reading raise that
    very exception without logging anything; a file that decodes is
    logged once, at debug level and whole, whether the reading then
    succeeds or not, and reading logs nothing else. *)
Theorem get_alert_details_trace rt w path :
  (forall e, files w path = inl e -> get_alert_details rt w path = ([], inl e)) /\
  (forall body, files w path = inr body ->
                trace (get_alert_details rt w path) = [Logged DEBUG (Object body)]).
Proof.
  apply get_alert_details_trace_cases.
Qed.

Lemma get_alert_details_trace_witness :
  get_alert_details sample_runtime sample_world "/tmp/garbage.json" =
    ([], inl JSONDecodeError) /\
  trace (get_alert_details sample_runtime sample_world "/tmp/no-agent-id.json") =
    [Logged DEBUG (Object (record [("description", VStr "Test")] []))].
Proof.
  split.
  - apply (get_alert_details_trace sample_runtime sample_world "/tmp/garbage.json").
    reflexivity.
  - apply (get_alert_details_trace sample_runtime sample_world
             "/tmp/no-agent-id.json").
    reflexivity.
Defined.

Lemma str_of_int_not_default (z : Z) :
  str_of_int z <> "" /\ str_of_int z <> "Wazuh Alert".
Proof.
  pose proof (str_of_int_parsed z) as P.
  split; intro H; rewrite H in P; discriminate P.
Qed.

(** X9: the default is given to the empty text only, not to the other
    values Python takes for false: a description that is null, false or 0
    in the record becomes "None", "False" or "0", as every boolean and
    integer becomes its text, and never "Wazuh Alert". *)
Theorem description_of_falsy_values rt w path body source alert :
  files w path = inr body ->
  lookup ["rule"; "description"] body = Some source ->
  outcome (get_alert_details rt w path) = inr alert ->
  (source = VNone -> rule_description alert = "None") /\
  (forall b, source = VBool b ->
             rule_description alert = if b then "True" else "False") /\
  (forall z, source = VInt z -> rule_description alert = str_of_int z) /\
  (source = VNone \/ (exists b, source = VBool b) \/ (exists z, source = VInt z) ->
   rule_description alert <> "Wazuh Alert").
Proof.
  intros Hfile Hsource Hout.
  apply get_alert_details_returned in Hout
    as (body' & _ & _ & description & _ & _ & _ & Hfile' &
        _ & _ & _ & _ & Hdesc & Hrd & _).
  assert (body' = body) by congruence. subst body'.
  assert (description = source) by congruence. subst description.
  assert (Hint : forall z, rule_description alert = str_of_int z ->
                           rule_description alert <> "Wazuh Alert").
  { intros z E. rewrite E. apply str_of_int_not_default. }
  assert (Hz : forall z, source = VInt z -> rule_description alert = str_of_int z).
  { intros z ->. rewrite Hrd. simpl.
    destruct (str_of_int z) eqn:E; [| reflexivity].
    destruct (str_of_int_not_default z) as [N _]. contradiction. }
  split; [| split; [| split]].
  - intros ->. exact Hrd.
  - intros [|] ->; exact Hrd.
  - exact Hz.
  - intros [-> | [[[|] ->] | [z Hs]]].
    + rewrite Hrd. discriminate.
    + rewrite Hrd. discriminate.
    + rewrite Hrd. discriminate.
    + exact (Hint z (Hz z Hs)).
Qed.

Lemma description_of_falsy_values_witness :
  exists alert,
    outcome (get_alert_details sample_runtime edge_world
                               "/tmp/zero-description.json") = inr alert /\
    rule_description alert = "0".
Proof.
  eexists. split; [reflexivity |].
  destruct (description_of_falsy_values sample_runtime edge_world
              "/tmp/zero-description.json"
              (record [("description", VInt 0)] [("id", VInt 1)])
              (VInt 0) _ eq_refl eq_refl eq_refl) as (_ & _ & integer & _).
  exact (integer 0%Z eq_refl).
Defined.

(** X10: a file that decodes to something else than an object makes
    reading raise [TypeError], and an object without "rule" makes it raise
    [KeyError] on "rule", both after the debug entry. *)
Theorem get_alert_details_not_a_record rt w path body :
  files w path = inr body ->
  ((forall d, body <> VDict d) ->
   get_alert_details rt w path = ([Logged DEBUG (Object body)], inl TypeError)) /\
  (forall d, body = VDict d -> assoc "rule" d = None ->
   get_alert_details rt w path =
     ([Logged DEBUG (Object body)], inl (KeyError "rule"))).
Proof.
  intro Hfile. split.
  - intro Hnot.
    unfold get_alert_details, logging_debug, emit, lift, bind. rewrite Hfile.
    destruct body; try reflexivity. exfalso. exact (Hnot d eq_refl).
  - intros d -> Hrule.
    unfold get_alert_details, logging_debug, emit, lift, bind. rewrite Hfile.
    simpl. rewrite Hrule. reflexivity.
Qed.

Lemma get_alert_details_not_a_record_witness :
  get_alert_details sample_runtime edge_world "/tmp/list.json" =
    ([Logged DEBUG (Object (VList [VInt 1; VInt 2]))], inl TypeError) /\
  get_alert_details sample_runtime edge_world "/tmp/empty-object.json" =
    ([Logged DEBUG (Object (VDict []))], inl (KeyError "rule")).
Proof.
  destruct (get_alert_details_not_a_record sample_runtime edge_world
              "/tmp/list.json" (VList [VInt 1; VInt 2]) eq_refl) as [other _].
  destruct (get_alert_details_not_a_record sample_runtime edge_world
              "/tmp/empty-object.json" (VDict []) eq_refl) as [_ object].
  split.
  - apply other. intros d H. discriminate H.
  - apply (object []); reflexivity.
Defined.

(** ** Sending *)

(** What [send_message] does, by what the network answers. *)
Lemma send_message_run rt w card webhook :
  send_message rt w card webhook =
    (([Logged INFO (Text ("Sending message to Power Automate: " ++ json_dumps rt card));
       Logged INFO (Text ("Using webhook URL: " ++ html.unescape rt webhook));
       Posted (webhook_request rt card webhook)] ++
      match network w (webhook_request rt card webhook) with
      | inl _ => []
      | inr r =>
          if ok r then
            [Logged INFO (Text "Successfully sent message to Power Automate")]
          else
            [Logged ERROR (Text "Failed to send message!");
             Logged ERROR (Text ("Response code: " ++ str_of_int (status_code r)
                                 ++ ", response body: " ++ text r))]
      end)%list,
     match network w (webhook_request rt card webhook) with
     | inl e => inl e
     | inr _ => inr tt
     end).
Proof.
  unfold send_message, requests_post, logging_info, logging_error, emit, lift,
    bind, webhook_request.
  destruct (network w _) as [e | r]; [reflexivity |].
  destruct (ok r); reflexivity.
Qed.

(** X11: whatever the network does, [send_message] makes one request and
    no more: a POST to the decoded webhook with the serialised card, the
    JSON content type and a timeout of 60 seconds, made after the payload
    and the URL have been logged in full. *)
Theorem send_message_posts_once rt w card webhook :
  posts (trace (send_message rt w card webhook)) =
    [{| url := html.unescape rt webhook;
        headers := [("Content-Type", "application/json")];
        data := json_dumps rt card;
        timeout := 60 |}] /\
  exists rest,
    trace (send_message rt w card webhook) =
      ([Logged INFO (Text ("Sending message to Power Automate: " ++ json_dumps rt card));
        Logged INFO (Text ("Using webhook URL: " ++ html.unescape rt webhook));
        Posted (webhook_request rt card webhook)] ++ rest)%list /\
    posts rest = [].
Proof.
  rewrite send_message_run. unfold trace. cbn [fst].
  destruct (network w _) as [e | r]; [| destruct (ok r)];
    (split; [reflexivity | eexists; split; reflexivity]).
Qed.

(** X12: [send_message] returns normally exactly when the POST returned a
    response, whatever its status, and raises exactly what the POST
    raises. *)
Theorem send_message_returns_iff rt w card webhook :
  (outcome (send_message rt w card webhook) = inr tt <->
   exists r, network w (webhook_request rt card webhook) = inr r) /\
  (forall e, outcome (send_message rt w card webhook) = inl e <->
             network w (webhook_request rt card webhook) = inl e).
Proof.
  rewrite send_message_run. unfold outcome. cbn [snd].
  destruct (network w _) as [e | r]; split.
  - split; [discriminate | intros [r H]; discriminate H].
  - intro e'. split; congruence.
  - split; [intros _; exists r; reflexivity | reflexivity].
  - intro e'. split; discriminate.
Qed.

Lemma send_message_returns_iff_witness :
  outcome (send_message sample_runtime sample_world VNone
                        "https://teams.example/broken") = inr tt.
Proof.
  apply (send_message_returns_iff sample_runtime sample_world VNone
           "https://teams.example/broken").
  exists {| status_code := 500; text := "Internal Server Error" |}. reflexivity.
Defined.

(** X13: [send_message] logs at error level exactly when the POST
    returned a response with a status from 400 to 599; an exception of
    the POST is not logged by [send_message] itself. *)
Theorem send_message_errors_iff rt w card webhook :
  errors (trace (send_message rt w card webhook)) <> [] <->
  exists r, network w (webhook_request rt card webhook) = inr r /\
            (400 <= status_code r < 600)%Z.
Proof.
  rewrite send_message_run. unfold trace. cbn [fst].
  destruct (network w _) as [e | r].
  - split; [intro H; exfalso; apply H; reflexivity |].
    intros (r & H & _). discriminate H.
  - destruct (ok r) eqn:Hok.
    + split; [intro H; exfalso; apply H; reflexivity |].
      intros (r' & H & Hstatus). injection H as <-.
      apply ok_false in Hstatus. congruence.
    + split; [| discriminate].
      intros _. exists r. split; [reflexivity | apply ok_false; exact Hok].
Qed.

Lemma send_message_errors_iff_witness :
  errors (trace (send_message sample_runtime sample_world VNone
                              "https://teams.example/broken")) <> [].
Proof.
  apply (send_message_errors_iff sample_runtime sample_world VNone
           "https://teams.example/broken").
  exists {| status_code := 500; text := "Internal Server Error" |}.
  split; [reflexivity | simpl; lia].
Defined.

(** ** The entry point and the process *)

Lemma posts_app (a b : list event) : posts (a ++ b) = (posts a ++ posts b)%list.
Proof. apply flat_map_app. Qed.

Lemma errors_app (a b : list event) : errors (a ++ b) = (errors a ++ errors b)%list.
Proof. apply flat_map_app. Qed.

Lemma rendered_card_of (alert : Alert) : rendered alert (card_of alert).
Proof. reflexivity. Qed.

Lemma rendered_unique (alert : Alert) (card : value) :
  rendered alert card -> card = card_of alert.
Proof.
  intro H. pose proof (rendered_card_of alert) as H'.
  unfold rendered in *. congruence.
Qed.

(** Reading sends nothing and logs no error. *)
Lemma get_alert_details_quiet rt w path :
  posts (trace (get_alert_details rt w path)) = [] /\
  errors (trace (get_alert_details rt w path)) = [].
Proof.
  destruct (files w path) as [e | body] eqn:Hfile.
  - rewrite (proj1 (get_alert_details_trace_cases rt w path) e Hfile). split; reflexivity.
  - rewrite (proj2 (get_alert_details_trace_cases rt w path) body Hfile).
    split; reflexivity.
Qed.

Lemma send_message_posts_once_aux rt w card webhook :
  posts (trace (send_message rt w card webhook)) =
    [webhook_request rt card webhook] /\
  (errors (trace (send_message rt w card webhook)) = [] <->
   forall r, network w (webhook_request rt card webhook) = inr r -> ok r = true).
Proof.
  rewrite send_message_run. unfold trace. cbn [fst].
  destruct (network w _) as [e | r]; [| destruct (ok r) eqn:Hok].
  - split; [reflexivity |]. split; [| reflexivity].
    intros _ r H. discriminate H.
  - split; [reflexivity |]. split; [| reflexivity].
    intros _ r' H. injection H as <-. exact Hok.
  - split; [reflexivity |]. split; [discriminate |].
    intro H. specialize (H r eq_refl). congruence.
Qed.

(** A run on a vector that has the three positional inputs. *)
Lemma handle_alert_run rt w prog path unused webhook (extra : list string) :
  handle_alert rt w (prog :: path :: unused :: webhook :: extra) =
    match outcome (get_alert_details rt w path) with
    | inl e => (trace (get_alert_details rt w path), inl e)
    | inr alert =>
        ((trace (get_alert_details rt w path) ++
          Logged INFO (Text "Generating MS Teams Adaptive Card") ::
          trace (send_message rt w (card_of alert) webhook))%list,
         outcome (send_message rt w (card_of alert) webhook))
    end.
Proof.
  unfold handle_alert, index, lift, outcome, trace. simpl.
  destruct (get_alert_details rt w path) as [t [e | alert]]; simpl.
  - reflexivity.
  - unfold card_of, outcome. simpl.
    destruct (send_message rt w _ webhook) as [t' r]. reflexivity.
Qed.

(** X15: when reading the alert raises, the run stops there: it ends
    with that exception, has done nothing but the reading, and no request
    has been sent. *)
Theorem handle_alert_read_failure rt w prog path unused webhook
        (extra : list string) e :
  outcome (get_alert_details rt w path) = inl e ->
  handle_alert rt w (prog :: path :: unused :: webhook :: extra) =
    (trace (get_alert_details rt w path), inl e) /\
  posts (trace (handle_alert rt w (prog :: path :: unused :: webhook :: extra))) = [].
Proof.
  intro H. rewrite handle_alert_run, H. split; [reflexivity |].
  unfold trace at 1. cbn [fst]. apply get_alert_details_quiet.
Qed.

Lemma handle_alert_read_failure_witness :
  posts (trace (handle_alert sample_runtime sample_world
                  ["custom-teams.py"; "/tmp/no-agent-id.json"; "";
                   "https://teams.example/hook?a=1&amp;b=2"])) = [].
Proof.
  apply (handle_alert_read_failure sample_runtime sample_world
           "custom-teams.py" "/tmp/no-agent-id.json" ""
           "https://teams.example/hook?a=1&amp;b=2" [] (KeyError "id")).
  reflexivity.
Defined.

(** X16: when the alert is read, the run renders it and sends that card,
    once, to the decoded third argument; it ends as the sending ends, and
    its log is the log of the reading, the entry of the rendering and the
    log of the sending, in that order. *)
Theorem handle_alert_delivers rt w prog path unused webhook
        (extra : list string) alert card :
  outcome (get_alert_details rt w path) = inr alert ->
  rendered alert card ->
  let run := handle_alert rt w (prog :: path :: unused :: webhook :: extra) in
  posts (trace run) = [webhook_request rt card webhook] /\
  outcome run = outcome (send_message rt w card webhook) /\
  trace run =
    (trace (get_alert_details rt w path) ++
     trace (generate_adaptive_card alert) ++
     trace (send_message rt w card webhook))%list.
Proof.
  intros Hread Hcard run. subst run.
  apply rendered_unique in Hcard. subst card.
  rewrite handle_alert_run, Hread.
  split; [| split; reflexivity].
  unfold trace at 1. cbn [fst].
  rewrite posts_app. rewrite (proj1 (get_alert_details_quiet rt w path)).
  cbn [posts flat_map app].
  apply (proj1 (send_message_posts_once_aux rt w (card_of alert) webhook)).
Qed.

Lemma handle_alert_delivers_witness :
  posts (trace (handle_alert sample_runtime sample_world
                  ["custom-teams.py"; "/tmp/alert.json"; "";
                   "https://teams.example/hook?a=1&amp;b=2"; "more"])) =
    [{| url := "https://teams.example/hook?a=1&b=2";
        headers := [("Content-Type", "application/json")];
        data := "<json>"; timeout := 60 |}].
Proof.
  apply (handle_alert_delivers sample_runtime sample_world
           "custom-teams.py" "/tmp/alert.json" ""
           "https://teams.example/hook?a=1&amp;b=2" ["more"]
           {| rule_id := 100; rule_level := 12; rule_description := "Test";
              agent_id := 1; agent_name := "srv1"; full_log := "x" |}
           (card_of {| rule_id := 100; rule_level := 12;
                       rule_description := "Test"; agent_id := 1;
                       agent_name := "srv1"; full_log := "x" |}));
    reflexivity.
Defined.

(** The argument vectors: too short, or with the three positional inputs. *)
Lemma argv_cases (argv : list string) :
  length argv < 4 \/
  exists prog path unused webhook extra,
    argv = prog :: path :: unused :: webhook :: extra.
Proof.
  destruct argv as [| a0 [| a1 [| a2 [| a3 rest]]]]; simpl; try (left; lia).
  right. do 5 eexists. reflexivity.
Qed.

(** The process: the arguments are logged, then the run, then the
    exception if there is one. *)
Lemma main_run rt w (argv : list string) :
  main rt w argv =
    ((Logged DEBUG (Arguments argv) :: trace (handle_alert rt w argv) ++
      match outcome (handle_alert rt w argv) with
      | inl e => [Logged ERROR (Failure e)]
      | inr _ => []
      end)%list,
     outcome (handle_alert rt w argv)).
Proof.
  unfold main, logging_debug, emit, bind, trace, outcome.
  destruct (handle_alert rt w argv) as [t [e | []]]; simpl.
  - reflexivity.
  - rewrite app_nil_r. reflexivity.
Qed.

(** X17: a process sends at most one request, whatever its arguments,
    the file and the answers of the network: nothing is retried or sent
    twice. *)
Theorem main_posts_at_most_once rt w (argv : list string) :
  length (posts (trace (main rt w argv))) <= 1.
Proof.
  rewrite main_run. unfold trace at 1. cbn [fst].
  change (Logged DEBUG (Arguments argv) :: ?t) with ([Logged DEBUG (Arguments argv)] ++ t)%list.
  rewrite !posts_app.
  assert (Hend : posts match outcome (handle_alert rt w argv) with
                       | inl e => [Logged ERROR (Failure e)]
                       | inr _ => []
                       end = []).
  { destruct (outcome (handle_alert rt w argv)); reflexivity. }
  rewrite Hend, app_nil_r. cbn [posts flat_map app].
  destruct (argv_cases argv) as [Hshort | (prog & path & unused & webhook & extra & ->)].
  - rewrite (handle_alert_short rt w argv Hshort). simpl. lia.
  - rewrite handle_alert_run.
    destruct (outcome (get_alert_details rt w path)) as [e | alert];
      unfold trace at 1; cbn [fst].
    + rewrite (proj1 (get_alert_details_quiet rt w path)). simpl. lia.
    + rewrite posts_app, (proj1 (get_alert_details_quiet rt w path)).
      cbn [posts flat_map app].
      fold (posts (trace (send_message rt w (card_of alert) webhook))).
      rewrite (proj1 (send_message_posts_once_aux rt w (card_of alert) webhook)).
      simpl. lia.
Qed.

(** X18: the process ends normally exactly when it was given the three
    positional inputs, the alert was read and the POST of its card
    returned a response, of whatever status; in every other case it ends
    with the exception. *)
Theorem main_ends_normally_iff rt w (argv : list string) :
  outcome (main rt w argv) = inr tt <->
  exists prog path unused webhook extra alert r,
    argv = prog :: path :: unused :: webhook :: extra /\
    outcome (get_alert_details rt w path) = inr alert /\
    network w (webhook_request rt (card_of alert) webhook) = inr r.
Proof.
  rewrite main_run. unfold outcome at 1. cbn [snd].
  split.
  - intro H.
    destruct (argv_cases argv) as [Hshort | (prog & path & unused & webhook & extra & ->)].
    + rewrite (handle_alert_short rt w argv Hshort) in H. discriminate H.
    + rewrite handle_alert_run in H.
      destruct (outcome (get_alert_details rt w path)) as [e | alert] eqn:Hread;
        [discriminate H |].
      unfold outcome at 1 in H. cbn [snd] in H.
      rewrite send_message_run in H. unfold outcome in H. cbn [snd] in H.
      destruct (network w _) as [e | r] eqn:Hnet; [discriminate H |].
      exists prog, path, unused, webhook, extra, alert, r. auto.
  - intros (prog & path & unused & webhook & extra & alert & r & -> & Hread & Hnet).
    rewrite handle_alert_run, Hread. unfold outcome at 1. cbn [snd].
    rewrite send_message_run. unfold outcome. cbn [snd]. rewrite Hnet. reflexivity.
Qed.

Lemma main_ends_normally_iff_witness :
  outcome (main sample_runtime sample_world
             ["custom-teams.py"; "/tmp/alert.json"; "";
              "https://teams.example/broken"]) = inr tt.
Proof.
  apply (main_ends_normally_iff sample_runtime sample_world).
  exists "custom-teams.py", "/tmp/alert.json", "", "https://teams.example/broken",
    [], {| rule_id := 100; rule_level := 12; rule_description := "Test";
           agent_id := 1; agent_name := "srv1"; full_log := "x" |},
    {| status_code := 500; text := "Internal Server Error" |}.
  repeat split.
Defined.

(** X19: the log of a process has no entry at error level exactly when it
    was given the three positional inputs, the alert was read and the POST
    returned a response whose status is not from 400 to 599: every failure
    leaves an error in the log. *)
Theorem main_log_clean_iff rt w (argv : list string) :
  errors (trace (main rt w argv)) = [] <->
  exists prog path unused webhook extra alert r,
    argv = prog :: path :: unused :: webhook :: extra /\
    outcome (get_alert_details rt w path) = inr alert /\
    network w (webhook_request rt (card_of alert) webhook) = inr r /\
    ok r = true.
Proof.
  rewrite main_run. unfold trace at 1. cbn [fst].
  change (Logged DEBUG (Arguments argv) :: ?t) with ([Logged DEBUG (Arguments argv)] ++ t)%list.
  rewrite !errors_app. cbn [errors flat_map app].
  split.
  - intro H. apply app_eq_nil in H as [Hrun Hend].
    destruct (argv_cases argv) as [Hshort | (prog & path & unused & webhook & extra & ->)].
    + rewrite (handle_alert_short rt w argv Hshort) in Hend. discriminate Hend.
    + rewrite handle_alert_run in Hrun, Hend.
      destruct (outcome (get_alert_details rt w path)) as [e | alert] eqn:Hread;
        [discriminate Hend |].
      unfold trace at 1 in Hrun. cbn [fst] in Hrun.
      unfold outcome at 1 in Hend. cbn [snd] in Hend.
      rewrite errors_app in Hrun. apply app_eq_nil in Hrun as [_ Hsend].
      cbn [errors flat_map app] in Hsend.
      rewrite send_message_run in Hend. unfold outcome in Hend. cbn [snd] in Hend.
      destruct (network w _) as [e | r] eqn:Hnet; [discriminate Hend |].
      exists prog, path, unused, webhook, extra, alert, r.
      repeat split; auto.
      apply (proj2 (send_message_posts_once_aux rt w (card_of alert) webhook));
        assumption.
  - intros (prog & path & unused & webhook & extra & alert & r & -> & Hread &
            Hnet & Hok).
    rewrite handle_alert_run, Hread. unfold trace at 1, outcome at 1. cbn [fst snd].
    rewrite errors_app, (proj2 (get_alert_details_quiet rt w path)).
    cbn [errors flat_map app].
    rewrite send_message_run. unfold trace, outcome. cbn [fst snd].
    rewrite Hnet, Hok. reflexivity.
Qed.

Lemma main_log_clean_iff_witness :
  errors (trace (main sample_runtime sample_world
                   ["custom-teams.py"; "/tmp/alert.json"; "";
                    "https://teams.example/hook?a=1&amp;b=2"])) = [].
Proof.
  apply (main_log_clean_iff sample_runtime sample_world).
  exists "custom-teams.py", "/tmp/alert.json", "",
    "https://teams.example/hook?a=1&amp;b=2",
    [], {| rule_id := 100; rule_level := 12; rule_description := "Test";
           agent_id := 1; agent_name := "srv1"; full_log := "x" |},
    {| status_code := 202; text := "" |}.
  repeat split.
Defined.

(** X14: given fewer than the three positional inputs, the process reads
    no file and sends nothing: it raises [IndexError], which is logged
    after the arguments. *)
Theorem main_too_few_arguments rt w (argv : list string) :
  length argv < 4 ->
  handle_alert rt w argv = ([], inl IndexError) /\
  main rt w argv =
    ([Logged DEBUG (Arguments argv); Logged ERROR (Failure IndexError)],
     inl IndexError).
Proof.
  intro H. split.
  - apply handle_alert_short. exact H.
  - rewrite main_run, (handle_alert_short rt w argv H). reflexivity.
Qed.

Lemma main_too_few_arguments_witness :
  main sample_runtime sample_world ["custom-teams.py"; "/tmp/alert.json"; "unused"] =
    ([Logged DEBUG (Arguments ["custom-teams.py"; "/tmp/alert.json"; "unused"]);
      Logged ERROR (Failure IndexError)],
     inl IndexError).
Proof.
  apply (main_too_few_arguments sample_runtime sample_world
           ["custom-teams.py"; "/tmp/alert.json"; "unused"]).
  simpl. lia.
Defined.

(** X20: a webhook without ampersand is used as it is given: the request
    goes to that very URL. *)
Theorem send_message_plain_webhook rt w card webhook :
  html.contains "&" webhook = false ->
  posts (trace (send_message rt w card webhook)) =
    [{| url := webhook;
        headers := [("Content-Type", "application/json")];
        data := json_dumps rt card;
        timeout := 60 |}].
Proof.
  intro H.
  rewrite (proj1 (send_message_posts_once_aux rt w card webhook)).
  unfold webhook_request. rewrite (unescape_without_ampersand rt webhook H).
  reflexivity.
Qed.

Lemma send_message_plain_webhook_witness :
  posts (trace (send_message sample_runtime sample_world VNone
                             "https://teams.example/broken")) =
    [{| url := "https://teams.example/broken";
        headers := [("Content-Type", "application/json")];
        data := "<json>";
        timeout := 60 |}].
Proof.
  apply (send_message_plain_webhook sample_runtime sample_world VNone
           "https://teams.example/broken").
  reflexivity.
Defined.
